(** * torchy_baselines.common.distributions

    A shallow embedding of [torchy_baselines/common/distributions.py] and the
    properties of its probability distributions.

    Numbers.  Tensor elements are real numbers ([R]): the arithmetic is the
    exact one, rounding is not modelled.  [th.finfo(dtype).eps] is kept as
    the exact power of two of each floating type, and the functions of
    [torch] the module calls ([exp], [log], [log1p], [tanh], [sqrt], [mm],
    [bmm], [sum], [clamp], the closed forms of [torch.distributions.Normal])
    are written out from their documented definitions.

    Tensors.  A tensor carries its shape in its type: [tensor A [b; n]] is a
    batch of [b] rows of [n] elements, [tensor A []] is a scalar. *)

From Stdlib Require Import Reals Lra Lia List Bool Arith ZArith String.
Import ListNotations.

(** ** Tensors *)

Module Tensor.

Definition shape := list nat.

(** A vector of [n] elements, as nested pairs. *)
Fixpoint vec (A : Type) (n : nat) : Type :=
  match n with
  | O => unit
  | S k => (A * vec A k)%type
  end.

Fixpoint tensor (A : Type) (s : shape) : Type :=
  match s with
  | [] => A
  | n :: s' => vec (tensor A s') n
  end.

Section Vectors.
Variables A B C : Type.

Fixpoint vmap (f : A -> B) (n : nat) : vec A n -> vec B n :=
  match n with
  | O => fun _ => tt
  | S k => fun v => (f (fst v), vmap f k (snd v))
  end.

Fixpoint vmap2 (f : A -> B -> C) (n : nat) : vec A n -> vec B n -> vec C n :=
  match n with
  | O => fun _ _ => tt
  | S k => fun v w => (f (fst v) (fst w), vmap2 f k (snd v) (snd w))
  end.

Fixpoint vrepeat (x : A) (n : nat) : vec A n :=
  match n with
  | O => tt
  | S k => (x, vrepeat x k)
  end.

Fixpoint vfold (f : A -> B -> B) (b : B) (n : nat) : vec A n -> B :=
  match n with
  | O => fun _ => b
  | S k => fun v => f (fst v) (vfold f b k (snd v))
  end.

(** [v[i]], with a default outside [0 .. n-1]. *)
Fixpoint vnth (d : A) (n : nat) : vec A n -> nat -> A :=
  match n with
  | O => fun _ _ => d
  | S k => fun v i =>
      match i with
      | O => fst v
      | S j => vnth d k (snd v) j
      end
  end.

Fixpoint vto_list (n : nat) : vec A n -> list A :=
  match n with
  | O => fun _ => []
  | S k => fun v => fst v :: vto_list k (snd v)
  end.

Fixpoint vforall (P : A -> Prop) (n : nat) : vec A n -> Prop :=
  match n with
  | O => fun _ => True
  | S k => fun v => P (fst v) /\ vforall P k (snd v)
  end.
End Vectors.

Arguments vmap {A B} f n v.
Arguments vmap2 {A B C} f n v w.
Arguments vrepeat {A} x n.
Arguments vfold {A B} f b n v.
Arguments vnth {A} d n v i.
Arguments vto_list {A} n v.
Arguments vforall {A} P n v.

Section Elementwise.
Variables A B C : Type.

Fixpoint tmap (f : A -> B) (s : shape) : tensor A s -> tensor B s :=
  match s return tensor A s -> tensor B s with
  | [] => f
  | n :: s' => vmap (tmap f s') n
  end.

Fixpoint tmap2 (f : A -> B -> C) (s : shape)
  : tensor A s -> tensor B s -> tensor C s :=
  match s return tensor A s -> tensor B s -> tensor C s with
  | [] => f
  | n :: s' => vmap2 (tmap2 f s') n
  end.

(** [th.full(s, x)]: [th.zeros], [th.ones] are instances. *)
Fixpoint tfull (x : A) (s : shape) : tensor A s :=
  match s return tensor A s with
  | [] => x
  | n :: s' => vrepeat (tfull x s') n
  end.

(** [t[i0, i1, ...]], with a default for an index outside the shape
    (too short, too long or out of range). *)
Fixpoint tget (d : A) (s : shape) : tensor A s -> list nat -> A :=
  match s return tensor A s -> list nat -> A with
  | [] => fun t idx => match idx with [] => t | _ :: _ => d end
  | n :: s' => fun t idx =>
      match idx with
      | [] => d
      | i :: idx' =>
          if i <? n then tget d s' (vnth (tfull d s') n t i) idx' else d
      end
  end.

Fixpoint tforall (P : A -> Prop) (s : shape) : tensor A s -> Prop :=
  match s return tensor A s -> Prop with
  | [] => P
  | n :: s' => vforall (tforall P s') n
  end.
End Elementwise.

Arguments tmap {A B} f s t.
Arguments tmap2 {A B C} f s t u.
Arguments tfull {A} x s.
Arguments tget {A} d s t idx.
Arguments tforall {A} P s t.

(** [len(tensor.shape)]. *)
Definition rank (s : shape) : nat := List.length s.

End Tensor.

(** ** The functions of [torch] the module calls *)

Module Torch.
Import Tensor.
Local Open Scope R_scope.

(** Floating types and [th.finfo(dtype).eps], the gap between 1 and the
    next representable number. *)
Inductive dtype := float16 | bfloat16 | float32 | float64.

Definition finfo_eps (d : dtype) : R :=
  match d with
  | float16 => / 1024                    (* 2^-10 *)
  | bfloat16 => / 128                    (* 2^-7 *)
  | float32 => / 8388608                 (* 2^-23 *)
  | float64 => / 4503599627370496        (* 2^-52 *)
  end.

(** Comparisons give boolean tensors; a boolean multiplied with a float
    is promoted to 0 or 1. *)
Definition Rleb (x y : R) : bool := if Rle_dec x y then true else false.
Definition Rltb (x y : R) : bool := if Rlt_dec x y then true else false.
Definition of_bool (b : bool) : R := if b then 1 else 0.

Definition log1p (x : R) : R := ln (1 + x).
Definition clampR (lo hi x : R) : R := Rmin (Rmax x lo) hi.

(** Elementwise operations, tensor with tensor. *)
Definition add (s : shape) : tensor R s -> tensor R s -> tensor R s := tmap2 Rplus s.
Definition sub (s : shape) : tensor R s -> tensor R s -> tensor R s := tmap2 Rminus s.
Definition mul (s : shape) : tensor R s -> tensor R s -> tensor R s := tmap2 Rmult s.
Definition div (s : shape) : tensor R s -> tensor R s -> tensor R s := tmap2 Rdiv s.
Definition mul_mask (s : shape) : tensor R s -> tensor bool s -> tensor R s :=
  tmap2 (fun x b => x * of_bool b) s.

(** Elementwise operations, tensor with Python number. *)
Definition adds (s : shape) (t : tensor R s) (c : R) : tensor R s := tmap (fun x => x + c) s t.
Definition subs (s : shape) (t : tensor R s) (c : R) : tensor R s := tmap (fun x => x - c) s t.
Definition rsubs (s : shape) (c : R) (t : tensor R s) : tensor R s := tmap (fun x => c - x) s t.
Definition muls (s : shape) (t : tensor R s) (c : R) : tensor R s := tmap (fun x => x * c) s t.
Definition rmuls (s : shape) (c : R) (t : tensor R s) : tensor R s := tmap (fun x => c * x) s t.
Definition le_s (s : shape) (t : tensor R s) (c : R) : tensor bool s := tmap (fun x => Rleb x c) s t.
Definition gt_s (s : shape) (t : tensor R s) (c : R) : tensor bool s := tmap (fun x => Rltb c x) s t.

Definition neg (s : shape) : tensor R s -> tensor R s := tmap Ropp s.
Definition exp (s : shape) : tensor R s -> tensor R s := tmap Rtrigo_def.exp s.
Definition log (s : shape) : tensor R s -> tensor R s := tmap ln s.
Definition tlog1p (s : shape) : tensor R s -> tensor R s := tmap log1p s.
Definition tanh (s : shape) : tensor R s -> tensor R s := tmap Rtrigo_def.tanh s.
Definition sqrt (s : shape) : tensor R s -> tensor R s := tmap R_sqrt.sqrt s.
Definition pow2 (s : shape) : tensor R s -> tensor R s := tmap (fun x => x * x) s.
Definition clamp (s : shape) (t : tensor R s) (lo hi : R) : tensor R s :=
  tmap (clampR lo hi) s t.

Definition zeros (s : shape) : tensor R s := tfull 0 s.
Definition ones (s : shape) : tensor R s := tfull 1 s.

(** [tensor.sum()]: every element, into a scalar. *)
Fixpoint sum (s : shape) : tensor R s -> R :=
  match s return tensor R s -> R with
  | [] => fun x => x
  | n :: s' => vfold (fun t acc => sum s' t + acc) 0 n
  end.

(** [tensor.sum(axis=1)] of a tensor of rank 2 or more: the second axis
    is summed away, the others are kept. *)
Definition sum_axis1 (b n : nat) (rest : shape)
  (t : tensor R (b :: n :: rest)) : tensor R (b :: rest) :=
  vmap (fun row : tensor R (n :: rest) => vfold (add rest) (zeros rest) n row) b t.

(** [th.mm]: one row times a matrix, then every row. *)
Definition vecmat (f a : nat) (r : tensor R [f]) (m : tensor R [f; a]) : tensor R [a] :=
  vfold (add [a]) (zeros [a]) f
    (vmap2 (fun x (row : tensor R [a]) => rmuls [a] x row) f r m).

Definition mm (b f a : nat) (x : tensor R [b; f]) (m : tensor R [f; a]) : tensor R [b; a] :=
  vmap (fun r : tensor R [f] => vecmat f a r m) b x.

(** [th.bmm]: the i-th matrix of the first batch times the i-th matrix of
    the second. *)
Definition bmm (b n m p : nat) (x : tensor R [b; n; m]) (y : tensor R [b; m; p])
  : tensor R [b; n; p] :=
  vmap2 (mm n m p) b x y.

(** [tensor.unsqueeze(1)] and [tensor.squeeze(1)] on a batch of rows. *)
Definition unsqueeze1 (b f : nat) (x : tensor R [b; f]) : tensor R [b; 1%nat; f] :=
  vmap (fun r : tensor R [f] => (r, tt)) b x.

Definition squeeze1 (b a : nat) (x : tensor R [b; 1%nat; a]) : tensor R [b; a] :=
  vmap (fun r : tensor R [1%nat; a] => fst r) b x.

End Torch.

(** ** Exceptions *)

Inductive exn :=
| AttributeError        (* a method of [None] is called *)
| IndexError            (* a dimension out of range *)
| TypeError             (* an unexpected keyword argument, [None] where a value is needed *)
| ShapeMismatch         (* shapes that differ: [torch] broadcasts them or raises
                           [RuntimeError]; the embedding stops there *)
| AssertionError (msg : string)
| NotImplementedError (msg : string).

Inductive result (A : Type) :=
| Ok (a : A)
| Raise (e : exn).

Arguments Ok {A} a.
Arguments Raise {A} e.

Definition bind {A B : Type} (m : result A) (k : A -> result B) : result B :=
  match m with
  | Ok a => k a
  | Raise e => Raise e
  end.

Notation "x <- m ;; k" := (bind m (fun x => k))
  (at level 61, m at next level, right associativity).

(** A tensor whose shape is only known at run time, as the attributes of
    the Python objects are. *)
Definition dyn : Type := { s : Tensor.shape & Tensor.tensor R s }.

Definition shape_eq_dec : forall s s' : Tensor.shape, {s = s'} + {s <> s'} :=
  list_eq_dec Nat.eq_dec.

(** ** [torch.distributions.Normal] *)

Module Normal.
Import Tensor.
Local Open Scope R_scope.

Record t (s : shape) := make { loc : tensor R s; scale : tensor R s }.
Arguments make {s} loc scale.
Arguments loc {s} _.
Arguments scale {s} _.

Definition mean (s : shape) (d : t s) : tensor R s := loc d.

(** [rsample()]: [loc + eps * scale], with [eps] the standard normal draw. *)
Definition rsample (s : shape) (d : t s) (eps : tensor R s) : tensor R s :=
  Torch.add s (loc d) (Torch.mul s eps (scale d)).

(** [rsample((n,))]: [n] independent draws. *)
Definition rsample_n (s : shape) (d : t s) (n : nat) (eps : tensor R (n :: s))
  : tensor R (n :: s) :=
  vmap (rsample s d) n eps.

(** [-((value - loc) ** 2) / (2 * var) - log_scale - log(sqrt(2 * pi))] *)
Definition log_prob (s : shape) (d : t s) (value : tensor R s) : tensor R s :=
  let var := Torch.pow2 s (scale d) in
  let log_scale := Torch.log s (scale d) in
  Torch.subs s
    (Torch.sub s
       (Torch.div s (Torch.neg s (Torch.pow2 s (Torch.sub s value (loc d))))
                    (Torch.rmuls s 2 var))
       log_scale)
    (ln (sqrt (2 * PI))).

(** [0.5 + 0.5 * log(2 * pi) + log(scale)] *)
Definition entropy (s : shape) (d : t s) : tensor R s :=
  tmap (fun x => (/ 2 + / 2 * ln (2 * PI)) + x) s (Torch.log s (scale d)).

(** The stored distribution, read at the shape of the value it is applied
    to; [None] when the shapes differ (broadcasting between a distribution
    and a value of another shape is outside the embedding). *)
Definition at_shape (s : shape) (d : { s' : shape & t s' }) : option (t s) :=
  match shape_eq_dec (projT1 d) s with
  | left e => Some (eq_rect (projT1 d) t (projT2 d) s e)
  | right _ => None
  end.
End Normal.

(** ** [sum_independent_dims] *)

Import Tensor.
Local Open Scope R_scope.

(** The shape of the result: a scalar for rank 0 and 1, the second axis
    removed for rank 2 and more. *)
Definition sid_shape (s : shape) : shape :=
  match s with
  | b :: _ :: rest => b :: rest
  | _ => []
  end.

(** [if len(tensor.shape) > 1: tensor.sum(axis=1) else: tensor.sum()] *)
Definition sum_independent_dims (s : shape) : tensor R s -> tensor R (sid_shape s) :=
  match s return tensor R s -> tensor R (sid_shape s) with
  | [] => Torch.sum []
  | b :: s' =>
      match s' return tensor R (b :: s') -> tensor R (sid_shape (b :: s')) with
      | [] => Torch.sum [b]
      | n :: rest => Torch.sum_axis1 b n rest
      end
  end.

(** [th.sum(tensor, dim=1)]: the dimension must exist. *)
Definition sum_dim1 (s : shape) : tensor R s -> result (tensor R (sid_shape s)) :=
  match s return tensor R s -> result (tensor R (sid_shape s)) with
  | [] => fun _ => Raise IndexError
  | b :: s' =>
      match s' return tensor R (b :: s') -> result (tensor R (sid_shape (b :: s'))) with
      | [] => fun _ => Raise IndexError
      | n :: rest => fun t => Ok (Torch.sum_axis1 b n rest t)
      end
  end.

(** ** [TanhBijector] *)

Module TanhBijector.
Record t := make { epsilon : R }.

(** [__init__(self, epsilon=1e-6)] *)
Definition default_epsilon : R := / 1000000.
Definition init (epsilon : option R) : t :=
  make (match epsilon with Some e => e | None => default_epsilon end).

Definition forward (s : shape) (x : tensor R s) : tensor R s := Torch.tanh s x.

(** [0.5 * (x.log1p() - (-x).log1p())] *)
Definition atanh (s : shape) (x : tensor R s) : tensor R s :=
  Torch.rmuls s (/ 2) (Torch.sub s (Torch.tlog1p s x) (Torch.tlog1p s (Torch.neg s x))).

(** [eps = th.finfo(y.dtype).eps;
     atanh(y.clamp(min=-1. + eps, max=1. - eps))] *)
Definition inverse (dt : Torch.dtype) (s : shape) (y : tensor R s) : tensor R s :=
  let eps := Torch.finfo_eps dt in
  atanh s (Torch.clamp s y (-1 + eps) (1 - eps)).

(** [th.log(1.0 - th.tanh(x) ** 2 + self.epsilon)] *)
Definition log_prob_correction (self : t) (s : shape) (x : tensor R s) : tensor R s :=
  Torch.log s (Torch.adds s (Torch.rsubs s 1 (Torch.pow2 s (Torch.tanh s x))) (epsilon self)).
End TanhBijector.

(** The attribute of an object read at a given shape. *)
Definition dyn_at (s : shape) (d : dyn) : option (tensor R s) :=
  match shape_eq_dec (projT1 d) s with
  | left e => Some (eq_rect (projT1 d) (tensor R) (projT2 d) s e)
  | right _ => None
  end.

(** The source of randomness: a standard normal draw for every shape asked. *)
Definition standard_normal := forall s : shape, tensor R s.

(** ** [DiagGaussianDistribution] *)

Module DiagGaussianDistribution.

(** [mean_actions] and [log_std] are set to [None] by [__init__] and never
    read or written again; they are left out. *)
Record t := make {
  distribution : option { s : shape & Normal.t s };
  action_dim : nat
}.

Definition init (action_dim : nat) : t := make None action_dim.

(** The parameter part of [proba_distribution_net]:
    [th.ones(self.action_dim) * log_std_init]; the linear layer is
    described by its two dimensions. *)
Definition proba_distribution_net (self : t) (latent_dim : nat) (log_std_init : R)
  : (nat * nat) * tensor R [action_dim self] :=
  ((latent_dim, action_dim self),
   Torch.muls [action_dim self] (Torch.ones [action_dim self]) log_std_init).

(** A vector of [d] elements repeated along the batch dimensions [bs]. *)
Fixpoint expand_last (bs : shape) (d : nat) (v : tensor R [d]) : tensor R (bs ++ [d]) :=
  match bs return tensor R (bs ++ [d]) with
  | [] => v
  | n :: bs' => vrepeat (expand_last bs' d v) n
  end.

(** [action_std = th.ones_like(mean_actions) * log_std.exp();
     self.distribution = Normal(mean_actions, action_std)] *)
Definition proba_distribution (bs : shape) (d : nat) (self : t)
  (mean_actions : tensor R (bs ++ [d])) (log_std : tensor R [d]) : t :=
  let action_std :=
    Torch.mul (bs ++ [d]) (Torch.ones (bs ++ [d]))
      (expand_last bs d (Torch.exp [d] log_std)) in
  make (Some (existT _ (bs ++ [d]) (Normal.make mean_actions action_std)))
       (action_dim self).

Definition mode (self : t) : result dyn :=
  match distribution self with
  | None => Raise AttributeError
  | Some (existT _ s d) => Ok (existT _ s (Normal.mean s d))
  end.

Definition sample (self : t) (eps : standard_normal) : result dyn :=
  match distribution self with
  | None => Raise AttributeError
  | Some (existT _ s d) => Ok (existT _ s (Normal.rsample s d (eps s)))
  end.

Definition entropy (self : t) : result dyn :=
  match distribution self with
  | None => Raise AttributeError
  | Some (existT _ s d) =>
      Ok (existT _ (sid_shape s) (sum_independent_dims s (Normal.entropy s d)))
  end.

(** [sum_independent_dims(self.distribution.log_prob(action))] *)
Definition log_prob (s : shape) (self : t) (action : tensor R s)
  : result (tensor R (sid_shape s)) :=
  match distribution self with
  | None => Raise AttributeError
  | Some d =>
      match Normal.at_shape s d with
      | None => Raise ShapeMismatch
      | Some d' => Ok (sum_independent_dims s (Normal.log_prob s d' action))
      end
  end.

Definition get_actions (self : t) (deterministic : bool) (eps : standard_normal) : result dyn :=
  if deterministic then mode self else sample self eps.

Definition actions_from_params (bs : shape) (d : nat) (self : t)
  (mean_actions : tensor R (bs ++ [d])) (log_std : tensor R [d])
  (deterministic : bool) (eps : standard_normal) : t * result dyn :=
  let self' := proba_distribution bs d self mean_actions log_std in
  (self', get_actions self' deterministic eps).

Definition log_prob_from_params (bs : shape) (d : nat) (self : t)
  (mean_actions : tensor R (bs ++ [d])) (log_std : tensor R [d]) (eps : standard_normal)
  : t * result (dyn * dyn) :=
  let (self', r) := actions_from_params bs d self mean_actions log_std false eps in
  (self',
   action <- r ;;
   lp <- log_prob (projT1 action) self' (projT2 action) ;;
   Ok (action, existT _ (sid_shape (projT1 action)) lp)).

End DiagGaussianDistribution.

(** ** [SquashedDiagGaussianDistribution] *)

Module SquashedDiagGaussianDistribution.

Record t := make {
  base : DiagGaussianDistribution.t;     (* the attributes of the parent class *)
  epsilon : R;
  gaussian_action : option dyn
}.

Definition default_epsilon : R := / 1000000.

Definition init (action_dim : nat) (epsilon : option R) : t :=
  make (DiagGaussianDistribution.init action_dim)
       (match epsilon with Some e => e | None => default_epsilon end)
       None.

Definition distribution (self : t) := DiagGaussianDistribution.distribution (base self).

Definition proba_distribution (bs : shape) (d : nat) (self : t)
  (mean_actions : tensor R (bs ++ [d])) (log_std : tensor R [d]) : t :=
  make (DiagGaussianDistribution.proba_distribution bs d (base self) mean_actions log_std)
       (epsilon self) (gaussian_action self).

(** [self.gaussian_action = self.distribution.mean;
     return th.tanh(self.gaussian_action)] *)
Definition mode (self : t) : result (t * dyn) :=
  match distribution self with
  | None => Raise AttributeError
  | Some (existT _ s d) =>
      let g := Normal.mean s d in
      Ok (make (base self) (epsilon self) (Some (existT _ s g)),
          existT _ s (Torch.tanh s g))
  end.

Definition entropy (self : t) : result (option dyn) := Ok None.

Definition sample (self : t) (eps : standard_normal) : result (t * dyn) :=
  match distribution self with
  | None => Raise AttributeError
  | Some (existT _ s d) =>
      let g := Normal.rsample s d (eps s) in
      Ok (make (base self) (epsilon self) (Some (existT _ s g)),
          existT _ s (Torch.tanh s g))
  end.

(** [dt] is the floating type of [action]. *)
Definition log_prob (dt : Torch.dtype) (s : shape) (self : t)
  (action : tensor R s) (gaussian_action : option (tensor R s))
  : result (tensor R (sid_shape s)) :=
  let gaussian_action :=
    match gaussian_action with
    | None => TanhBijector.inverse dt s action
    | Some g => g
    end in
  log_prob <- DiagGaussianDistribution.log_prob s (base self) gaussian_action ;;
  correction <-
    sum_dim1 s (Torch.log s
                  (Torch.adds s (Torch.rsubs s 1 (Torch.pow2 s action)) (epsilon self))) ;;
  Ok (Torch.sub (sid_shape s) log_prob correction).

Definition get_actions (self : t) (deterministic : bool) (eps : standard_normal) : result (t * dyn) :=
  if deterministic then mode self else sample self eps.

Definition actions_from_params (bs : shape) (d : nat) (self : t)
  (mean_actions : tensor R (bs ++ [d])) (log_std : tensor R [d])
  (deterministic : bool) (eps : standard_normal) : result (t * dyn) :=
  get_actions (proba_distribution bs d self mean_actions log_std) deterministic eps.

(** [action = self.actions_from_params(mean_actions, log_std);
     log_prob = self.log_prob(action, self.gaussian_action)] *)
Definition log_prob_from_params (dt : Torch.dtype) (bs : shape) (d : nat) (self : t)
  (mean_actions : tensor R (bs ++ [d])) (log_std : tensor R [d]) (eps : standard_normal)
  : result (t * (dyn * dyn)) :=
  r <- actions_from_params bs d self mean_actions log_std false eps ;;
  let (self', action) := r in
  let s := projT1 action in
  cached <- match gaussian_action self' with
            | None => Ok None
            | Some g => match dyn_at s g with
                        | Some g' => Ok (Some g')
                        | None => Raise ShapeMismatch
                        end
            end ;;
  lp <- log_prob dt s self' (projT2 action) cached ;;
  Ok (self', (action, existT _ (sid_shape s) lp)).

End SquashedDiagGaussianDistribution.

(** ** [torch.distributions.Categorical] *)

Module Categorical.

(** [th.finfo(dtype).min], the most negative finite number. *)
Definition finfo_min (dt : Torch.dtype) : R :=
  match dt with
  | Torch.float16 => - 65504
  | Torch.bfloat16 => - ((2 - / 128) * 2 ^ 127)
  | Torch.float32 => - ((2 - / 8388608) * 2 ^ 127)
  | Torch.float64 => - ((2 - / 4503599627370496) * 2 ^ 1023)
  end.

(** [row.logsumexp(dim=-1)] *)
Definition logsumexp (n : nat) (row : tensor R [n]) : R :=
  ln (Torch.sum [n] (Torch.exp [n] row)).

(** [Categorical(logits=...)] keeps
    [logits - logits.logsumexp(dim=-1, keepdim=True)]. *)
Definition normalize (b n : nat) (logits : tensor R [b; n]) : tensor R [b; n] :=
  vmap (fun row : tensor R [n] => Torch.subs [n] row (logsumexp n row)) b logits.

(** [F.softmax(row, dim=-1)] *)
Definition softmax (n : nat) (row : tensor R [n]) : tensor R [n] :=
  let e := Torch.exp [n] row in
  tmap (fun x => x / Torch.sum [n] e) [n] e.

(** [probs]: the softmax of the kept logits. *)
Definition probs (b n : nat) (logits : tensor R [b; n]) : tensor R [b; n] :=
  vmap (softmax n) b (normalize b n logits).

(** [entropy()]:
    [logits = th.clamp(self.logits, min=min_real);
     p_log_p = logits * self.probs; return -p_log_p.sum(-1)] *)
Definition entropy (dt : Torch.dtype) (b n : nat) (logits : tensor R [b; n]) : tensor R [b] :=
  let clamped := tmap (fun x => Rmax x (finfo_min dt)) [b; n] (normalize b n logits) in
  let p_log_p := Torch.mul [b; n] clamped (probs b n logits) in
  vmap (fun row : tensor R [n] => - Torch.sum [n] row) b p_log_p.

(** [log_prob(value)]: the kept logit at the index of each row; the index
    must be one of the [n] categories. *)
Fixpoint gather (n b : nat) : tensor R [b; n] -> tensor nat [b] -> result (tensor R [b]) :=
  match b return tensor R [b; n] -> tensor nat [b] -> result (tensor R [b]) with
  | O => fun _ _ => Ok tt
  | S b' => fun rows idx =>
      if (fst idx <? n)%nat then
        rest <- gather n b' (snd rows) (snd idx) ;;
        Ok (vnth 0 n (fst rows) (fst idx), rest)
      else Raise IndexError
  end.

Definition log_prob (b n : nat) (logits : tensor R [b; n]) (value : tensor nat [b])
  : result (tensor R [b]) :=
  gather n b (normalize b n logits) value.

End Categorical.

(** [th.argmax(row)]: the index of the first maximal value, scanning from
    the left with the best index and value so far. *)
Fixpoint argmax_from (n : nat) : tensor R [n] -> nat -> nat -> R -> nat :=
  match n return tensor R [n] -> nat -> nat -> R -> nat with
  | O => fun _ _ best _ => best
  | S k => fun v i best best_value =>
      if Rlt_dec best_value (fst v)
      then argmax_from k (snd v) (S i) i (fst v)
      else argmax_from k (snd v) (S i) best best_value
  end.

(** [th.argmax(t, dim=1)] of a batch of rows; a row must not be empty. *)
Definition argmax_dim1 (b n : nat) : tensor R [b; n] -> result (tensor nat [b]) :=
  match n return tensor R [b; n] -> result (tensor nat [b]) with
  | O => fun _ => Raise IndexError
  | S k => fun t =>
      Ok (vmap (fun row : tensor R [S k] => argmax_from k (snd row) 1 0 (fst row)) b t)
  end.

(** ** [CategoricalDistribution] *)

Module CategoricalDistribution.

(** The logits given to [proba_distribution], a batch of rows. *)
Record t := make {
  distribution : option { b : nat & { n : nat & tensor R [b; n] } };
  action_dim : nat
}.

Definition init (action_dim : nat) : t := make None action_dim.

Definition proba_distribution (b n : nat) (self : t) (action_logits : tensor R [b; n]) : t :=
  make (Some (existT _ b (existT _ n action_logits))) (action_dim self).

(** [th.argmax(self.distribution.probs, dim=1)] *)
Definition mode (self : t) : result { b : nat & tensor nat [b] } :=
  match distribution self with
  | None => Raise AttributeError
  | Some (existT _ b (existT _ n logits)) =>
      m <- argmax_dim1 b n (Categorical.probs b n logits) ;;
      Ok (existT _ b m)
  end.

(** [dt] is the floating type of the logits. *)
Definition entropy (dt : Torch.dtype) (self : t) : result { b : nat & tensor R [b] } :=
  match distribution self with
  | None => Raise AttributeError
  | Some (existT _ b (existT _ n logits)) =>
      Ok (existT _ b (Categorical.entropy dt b n logits))
  end.

(** [self.distribution.log_prob(action)], one category index for each row
    of the batch. *)
Definition log_prob (self : t) (b : nat) (action : tensor nat [b]) : result (tensor R [b]) :=
  match distribution self with
  | None => Raise AttributeError
  | Some (existT _ b' (existT _ n logits)) =>
      match Nat.eq_dec b' b with
      | right _ => Raise ShapeMismatch
      | left e =>
          Categorical.log_prob b n
            (eq_rect b' (fun k => tensor R [k; n]) logits b e) action
      end
  end.

(** [sample] draws with [torch.multinomial] and is left out. *)

End CategoricalDistribution.

(** ** [StateDependentNoiseDistribution] *)

Module StateDependentNoiseDistribution.

(** [latent_sde_dim] is [None] until [proba_distribution_net] sets it; the
    tensors it sizes have no rows before that. *)
Definition ldim (latent_sde_dim : option nat) : nat :=
  match latent_sde_dim with Some l => l | None => O end.

(** [mean_actions] and [log_std] are set to [None] by [__init__] and never
    read or written again; they are left out. *)
Record t := make {
  action_dim : nat;
  latent_sde_dim : option nat;
  use_expln : bool;
  full_std : bool;
  epsilon : R;
  learn_features : bool;
  bijector : option TanhBijector.t;
  distribution : option { b : nat & Normal.t [b; action_dim] };
  weights_dist : option (Normal.t [ldim latent_sde_dim; action_dim]);
  exploration_mat : option (tensor R [ldim latent_sde_dim; action_dim]);
  exploration_matrices :
    option { n : nat & tensor R [n; ldim latent_sde_dim; action_dim] };
  _latent_sde : option { b : nat & { f : nat & tensor R [b; f] } }
}.

Definition default_epsilon : R := / 1000000.

(** [__init__(action_dim, full_std=True, use_expln=False,
              squash_output=False, learn_features=False, epsilon=1e-6)] *)
Definition init (action_dim : nat) (full_std use_expln squash_output learn_features : bool)
  (epsilon : R) : t :=
  make action_dim None use_expln full_std epsilon learn_features
       (if squash_output then Some (TanhBijector.init (Some epsilon)) else None)
       None None None None None.

(** The rows and columns of the [log_std] parameter
    ([proba_distribution_net]): [(latent_sde_dim, action_dim)] with
    [full_std], [(latent_sde_dim, 1)] without. *)
Definition std_cols (full_std : bool) (action_dim : nat) : nat :=
  if full_std then action_dim else 1%nat.

Definition log_std_shape (self : t) : shape :=
  [ldim (latent_sde_dim self); std_cols (full_std self) (action_dim self)].

Definition std_shape (self : t) : shape :=
  [ldim (latent_sde_dim self); action_dim self].

(** The first part of [get_std]: the tensor bound to [std], whatever the
    shape of [log_std]. *)
Definition std_of_log_std (use_expln : bool) (epsilon : R) (s : shape)
  (log_std : tensor R s) : tensor R s :=
  if use_expln then
    let below_threshold :=
      Torch.mul_mask s (Torch.exp s log_std) (Torch.le_s s log_std 0) in
    let safe_log_std :=
      Torch.adds s (Torch.mul_mask s log_std (Torch.gt_s s log_std 0)) epsilon in
    let above_threshold :=
      Torch.mul_mask s (Torch.adds s (Torch.tlog1p s safe_log_std) 1)
                       (Torch.gt_s s log_std 0) in
    Torch.add s below_threshold above_threshold
  else
    Torch.exp s log_std.

(** A column repeated [a] times: what [th.ones(l, a) * std] makes of a
    [std] of shape [(l, 1)]. *)
Definition expand_cols (l a : nat) (std : tensor R [l; 1%nat]) : tensor R [l; a] :=
  vmap (fun r : tensor R [1%nat] => vrepeat (fst r) a) l std.

(** [get_std]: with [full_std] the tensor [std] itself, otherwise
    [th.ones(self.latent_sde_dim, self.action_dim) * std]. *)
Definition get_std (self : t) : tensor R (log_std_shape self) -> result (tensor R (std_shape self)) :=
  match full_std self as f
    return tensor R [ldim (latent_sde_dim self); std_cols f (action_dim self)]
           -> result (tensor R (std_shape self))
  with
  | true => fun log_std =>
      Ok (std_of_log_std (use_expln self) (epsilon self) (std_shape self) log_std)
  | false => fun log_std =>
      let std := std_of_log_std (use_expln self) (epsilon self)
                   [ldim (latent_sde_dim self); 1%nat] log_std in
      match latent_sde_dim self with
      | None => Raise TypeError
      | Some _ =>
          Ok (Torch.mul (std_shape self) (Torch.ones (std_shape self))
                (expand_cols (ldim (latent_sde_dim self)) (action_dim self) std))
      end
  end.

(** [sample_weights(log_std, batch_size)]; [eps1] and [epsn] are the two
    standard normal draws. *)
Definition sample_weights (self : t) (log_std : tensor R (log_std_shape self))
  (batch_size : nat) (eps1 : tensor R (std_shape self))
  (epsn : tensor R (batch_size :: std_shape self)) : result t :=
  std <- get_std self log_std ;;
  let weights_dist := Normal.make (Torch.zeros (std_shape self)) std in
  Ok (make (action_dim self) (latent_sde_dim self) (use_expln self) (full_std self)
           (epsilon self) (learn_features self) (bijector self) (distribution self)
           (Some weights_dist)
           (Some (Normal.rsample (std_shape self) weights_dist eps1))
           (Some (existT _ batch_size
                    (Normal.rsample_n (std_shape self) weights_dist batch_size epsn)))
           (_latent_sde self)).

(** [proba_distribution_net(latent_dim, log_std_init, latent_sde_dim)]:
    the linear layer is described by its two dimensions. *)
Definition proba_distribution_net (self : t) (latent_dim : nat) (log_std_init : R)
  (latent_sde_dim_arg : option nat) (eps : standard_normal)
  : result (t * ((nat * nat) * dyn)) :=
  let l := match latent_sde_dim_arg with None => latent_dim | Some l => l end in
  let self1 :=
    make (action_dim self) (Some l) (use_expln self) (full_std self)
         (epsilon self) (learn_features self) (bijector self) (distribution self)
         None None None (_latent_sde self) in
  let log_std := Torch.muls (log_std_shape self1) (Torch.ones (log_std_shape self1))
                   log_std_init in
  self2 <- sample_weights self1 log_std 1 (eps _) (eps _) ;;
  Ok (self2, ((latent_dim, action_dim self), existT _ (log_std_shape self1) log_std)).

(** [variance = th.mm(latent_sde ** 2, self.get_std(log_std) ** 2);
     self.distribution = Normal(mean_actions, th.sqrt(variance + self.epsilon))];
    [detach] leaves the values as they are. *)
Definition proba_distribution (self : t) (b : nat)
  (mean_actions : tensor R [b; action_dim self])
  (log_std : tensor R (log_std_shape self))
  (latent_sde : tensor R [b; ldim (latent_sde_dim self)]) : result t :=
  std <- get_std self log_std ;;
  let variance :=
    Torch.mm b (ldim (latent_sde_dim self)) (action_dim self)
      (Torch.pow2 _ latent_sde) (Torch.pow2 (std_shape self) std) in
  Ok (make (action_dim self) (latent_sde_dim self) (use_expln self) (full_std self)
           (epsilon self) (learn_features self) (bijector self)
           (Some (existT _ b
                    (Normal.make mean_actions
                       (Torch.sqrt _ (Torch.adds _ variance (epsilon self))))))
           (weights_dist self) (exploration_mat self) (exploration_matrices self)
           (Some (existT _ b (existT _ (ldim (latent_sde_dim self)) latent_sde)))).

Definition mode (self : t) : result { b : nat & tensor R [b; action_dim self] } :=
  match distribution self with
  | None => Raise AttributeError
  | Some (existT _ b d) =>
      let action := Normal.mean _ d in
      match bijector self with
      | Some _ => Ok (existT _ b (TanhBijector.forward _ action))
      | None => Ok (existT _ b action)
      end
  end.

(** [get_noise(latent_sde)]: [len(latent_sde)] is [b]. *)
Definition get_noise (self : t) (b : nat)
  (latent_sde : tensor R [b; ldim (latent_sde_dim self)])
  : result (tensor R [b; action_dim self]) :=
  let shared :=
    match exploration_mat self with
    | None => Raise TypeError
    | Some m => Ok (Torch.mm b (ldim (latent_sde_dim self)) (action_dim self) latent_sde m)
    end in
  if (b =? 1)%nat then shared
  else
    match exploration_matrices self with
    | None => Raise TypeError
    | Some (existT _ n mats) =>
        match Nat.eq_dec n b with
        | right _ => shared
        | left e =>
            let mats' :=
              eq_rect n (fun k => tensor R [k; ldim (latent_sde_dim self); action_dim self])
                      mats b e in
            let latent_sde := Torch.unsqueeze1 b _ latent_sde in
            let noise := Torch.bmm b 1 _ _ latent_sde mats' in
            Ok (Torch.squeeze1 b _ noise)
        end
    end.

Definition sample (self : t) (b : nat)
  (latent_sde : tensor R [b; ldim (latent_sde_dim self)])
  : result (tensor R [b; action_dim self]) :=
  noise <- get_noise self b latent_sde ;;
  match distribution self with
  | None => Raise AttributeError
  | Some d =>
      match Nat.eq_dec (projT1 d) b with
      | right _ => Raise ShapeMismatch
      | left e =>
          let mean := eq_rect (projT1 d) (fun k => tensor R [k; action_dim self])
                        (Normal.mean _ (projT2 d)) b e in
          let action := Torch.add _ mean noise in
          match bijector self with
          | Some _ => Ok (TanhBijector.forward _ action)
          | None => Ok action
          end
      end
  end.

(** [self.mode()] if [deterministic], else [self.sample(self._latent_sde)]:
    the features kept by [proba_distribution] must have
    [latent_sde_dim] columns for [th.mm]. *)
Definition get_actions (self : t) (deterministic : bool)
  : result { b : nat & tensor R [b; action_dim self] } :=
  if deterministic then mode self
  else
    match _latent_sde self with
    | None => Raise (if learn_features self then TypeError else AttributeError)
    | Some (existT _ b (existT _ f latent_sde)) =>
        match Nat.eq_dec f (ldim (latent_sde_dim self)) with
        | right _ => Raise ShapeMismatch
        | left e =>
            action <- sample self b (eq_rect f (fun k => tensor R [b; k]) latent_sde _ e) ;;
            Ok (existT _ b action)
        end
    end.

(** [if self.bijector is not None: return None;
     return sum_independent_dims(self.distribution.entropy())] *)
Definition entropy (self : t) : result (option { b : nat & tensor R [b] }) :=
  match bijector self with
  | Some _ => Ok None
  | None =>
      match distribution self with
      | None => Raise AttributeError
      | Some (existT _ b d) =>
          Ok (Some (existT _ b
                      (sum_independent_dims [b; action_dim self] (Normal.entropy _ d))))
      end
  end.

(** [dt] is the floating type of [action]. *)
Definition log_prob (dt : Torch.dtype) (self : t) (b : nat)
  (action : tensor R [b; action_dim self]) : result (tensor R [b]) :=
  let gaussian_action :=
    match bijector self with
    | Some _ => TanhBijector.inverse dt _ action
    | None => action
    end in
  match distribution self with
  | None => Raise AttributeError
  | Some d =>
      match Nat.eq_dec (projT1 d) b with
      | right _ => Raise ShapeMismatch
      | left e =>
          let d' := eq_rect (projT1 d) (fun k => Normal.t [k; action_dim self])
                      (projT2 d) b e in
          let log_prob :=
            sum_independent_dims [b; action_dim self]
              (Normal.log_prob _ d' gaussian_action) in
          match bijector self with
          | Some bij =>
              Ok (Torch.sub [b] log_prob
                    (Torch.sum_axis1 b (action_dim self) []
                       (TanhBijector.log_prob_correction bij _ gaussian_action)))
          | None => Ok log_prob
          end
      end
  end.

(** [self.proba_distribution(mean_actions, log_std, latent_sde);
     return self.get_actions(deterministic=deterministic)]: the object as it is
    left, and the actions. *)
Definition actions_from_params (self : t) (b : nat)
  (mean_actions : tensor R [b; action_dim self])
  (log_std : tensor R (log_std_shape self))
  (latent_sde : tensor R [b; ldim (latent_sde_dim self)]) (deterministic : bool)
  : result { self' : t & { b' : nat & tensor R [b'; action_dim self'] } } :=
  self' <- proba_distribution self b mean_actions log_std latent_sde ;;
  actions <- get_actions self' deterministic ;;
  Ok (existT _ self' actions).

(** [action = self.actions_from_params(mean_actions, log_std, latent_sde);
     log_prob = self.log_prob(action)] *)
Definition log_prob_from_params (dt : Torch.dtype) (self : t) (b : nat)
  (mean_actions : tensor R [b; action_dim self])
  (log_std : tensor R (log_std_shape self))
  (latent_sde : tensor R [b; ldim (latent_sde_dim self)])
  : result { self' : t & { b' : nat & (tensor R [b'; action_dim self'] * tensor R [b'])%type } } :=
  r <- actions_from_params self b mean_actions log_std latent_sde false ;;
  let (self', actions) := r in
  let (b', action) := actions in
  lp <- log_prob dt self' b' action ;;
  Ok (existT _ self' (existT _ b' (action, lp))).

End StateDependentNoiseDistribution.

(** ** [make_proba_distribution] *)

Local Open Scope string_scope.

(** The action spaces of [gym.spaces]. *)
Inductive Space :=
| Box (shape : list nat)
| Discrete (n : nat)
| MultiDiscrete (nvec : list nat)
| MultiBinary (n : nat)
| TupleSpace            (* the components of a tuple or a dictionary *)
| DictSpace.            (* of spaces play no part here *)

Definition type_name (action_space : Space) : string :=
  match action_space with
  | Box _ => "<class 'gym.spaces.box.Box'>"
  | Discrete _ => "<class 'gym.spaces.discrete.Discrete'>"
  | MultiDiscrete _ => "<class 'gym.spaces.multi_discrete.MultiDiscrete'>"
  | MultiBinary _ => "<class 'gym.spaces.multi_binary.MultiBinary'>"
  | TupleSpace => "<class 'gym.spaces.tuple.Tuple'>"
  | DictSpace => "<class 'gym.spaces.dict.Dict'>"
  end.

(** Modelled from the spec: [get_action_dim] of
    [torchy_baselines.common.preprocessing], which is not part of the
    sources at hand.  The distributions are built "with [action_dim] equal
    to the space's dimension": the number of elements of a box, that is the
    product of its shape (its length, for a vector). *)
Definition get_action_dim (action_space : Space) : nat :=
  match action_space with
  | Box shape => fold_right Nat.mul 1%nat shape
  | _ => 1%nat
  end.

(** Keyword arguments: a dictionary from names to Python values. *)
Inductive pyval :=
| PyBool (b : bool)
| PyFloat (r : R).

Definition kwargs := list (string * pyval).

Definition truthy (v : pyval) : bool :=
  match v with
  | PyBool b => b
  | PyFloat r => if Req_dec_T r 0 then false else true
  end.

Definition to_float (v : pyval) : R :=
  match v with
  | PyBool b => Torch.of_bool b
  | PyFloat r => r
  end.

Fixpoint lookup (k : string) (d : kwargs) : option pyval :=
  match d with
  | [] => None
  | (k', v) :: d' => if String.eqb k k' then Some v else lookup k d'
  end.

Definition only_keys (allowed : list string) (d : kwargs) : bool :=
  forallb (fun kv => existsb (String.eqb (fst kv)) allowed) d.

(** [Cls(action_dim, **dist_kwargs)]: a keyword the constructor does not
    have is a [TypeError]. *)
Definition new_DiagGaussianDistribution (action_dim : nat) (d : kwargs)
  : result DiagGaussianDistribution.t :=
  if only_keys [] d then Ok (DiagGaussianDistribution.init action_dim)
  else Raise TypeError.

Definition new_CategoricalDistribution (action_dim : nat) (d : kwargs)
  : result CategoricalDistribution.t :=
  if only_keys [] d then Ok (CategoricalDistribution.init action_dim)
  else Raise TypeError.

Definition flag (k : string) (default : bool) (d : kwargs) : bool :=
  match lookup k d with Some v => truthy v | None => default end.

Definition new_StateDependentNoiseDistribution (action_dim : nat) (d : kwargs)
  : result StateDependentNoiseDistribution.t :=
  if only_keys ["full_std"; "use_expln"; "squash_output"; "learn_features"; "epsilon"] d
  then Ok (StateDependentNoiseDistribution.init action_dim
             (flag "full_std" true d) (flag "use_expln" false d)
             (flag "squash_output" false d) (flag "learn_features" false d)
             (match lookup "epsilon" d with
              | Some v => to_float v
              | None => StateDependentNoiseDistribution.default_epsilon
              end))
  else Raise TypeError.

(** The classes of [Distribution] the factory builds. *)
Inductive Distribution :=
| IsDiagGaussian (o : DiagGaussianDistribution.t)
| IsStateDependentNoise (o : StateDependentNoiseDistribution.t)
| IsCategorical (o : CategoricalDistribution.t).

Definition make_proba_distribution (action_space : Space) (use_sde : bool)
  (dist_kwargs : option kwargs) : result Distribution :=
  let dist_kwargs := match dist_kwargs with None => [] | Some d => d end in
  match action_space with
  | Box shape =>
      if (List.length shape =? 1)%nat then
        if use_sde then
          o <- new_StateDependentNoiseDistribution (get_action_dim action_space) dist_kwargs ;;
          Ok (IsStateDependentNoise o)
        else
          o <- new_DiagGaussianDistribution (get_action_dim action_space) dist_kwargs ;;
          Ok (IsDiagGaussian o)
      else Raise (AssertionError "Error: the action space must be a vector")
  | Discrete n =>
      o <- new_CategoricalDistribution n dist_kwargs ;;
      Ok (IsCategorical o)
  | _ =>
      Raise (NotImplementedError
               ("Error: probability distribution, not implemented for action space"
                ++ "of type " ++ type_name action_space ++ "."
                ++ " Must be of type Gym Spaces: Box, Discrete, MultiDiscrete or MultiBinary."))
  end.

Local Close Scope string_scope.

(** ** Definitions used to state the properties *)

(** [f 0 + (f 1 + (... + (f (n-1) + 0)))] *)
Fixpoint big_sum (n : nat) (f : nat -> R) : R :=
  match n with
  | O => 0
  | S k => f O + big_sum k (fun i => f (S i))
  end.

(** The log-density and the entropy of one normal variable. *)
Definition normal_log_density (loc scale x : R) : R :=
  - ((x - loc) * (x - loc)) / (2 * (scale * scale)) - ln scale - ln (sqrt (2 * PI)).

Definition normal_entropy (scale : R) : R :=
  (/ 2 + / 2 * ln (2 * PI)) + ln scale.

(** The two failures of the factory, under the names the specification
    gives them: the failed assertion on the shape of a box, and the
    [NotImplementedError] of the last branch. *)
Definition UnsupportedShapeError : exn :=
  AssertionError "Error: the action space must be a vector".

Definition UnsupportedActionSpaceError (action_space : Space) : exn :=
  NotImplementedError
    ("Error: probability distribution, not implemented for action space"
     ++ "of type " ++ type_name action_space ++ "."
     ++ " Must be of type Gym Spaces: Box, Discrete, MultiDiscrete or MultiBinary.")%string.

(** [t[i, k]] for a batch of rows. *)
Definition elem2 (b n : nat) (t : tensor R [b; n]) (i k : nat) : R :=
  vnth 0 n (vnth (tfull 0 [n]) b t i) k.

(** [t[i, k, j]] for a batch of matrices. *)
Definition elem3 (b n m : nat) (t : tensor R [b; n; m]) (i k j : nat) : R :=
  elem2 n m (vnth (tfull 0 [n; m]) b t i) k j.

(** An object on which [proba_distribution] has run, with one row and one
    action dimension, no bijector. *)
Definition sde_example : StateDependentNoiseDistribution.t :=
  StateDependentNoiseDistribution.make 1 (Some 1%nat) false true
    StateDependentNoiseDistribution.default_epsilon false None
    (Some (existT _ 1%nat (Normal.make (s := [1%nat; 1%nat]) ((0, tt), tt) ((1, tt), tt))))
    None None None None.

(** An object on which [sample_weights] has run with [batch_size = 2]: one
    feature, one action dimension, the shared matrix [[2]] and the two
    per-sample matrices [[3]] and [[5]]. *)
Definition sde_noise_example : StateDependentNoiseDistribution.t :=
  StateDependentNoiseDistribution.make 1 (Some 1%nat) false true
    StateDependentNoiseDistribution.default_epsilon false None
    None None
    (Some ((2, tt), tt))
    (Some (existT _ 2%nat (((3, tt), tt), (((5, tt), tt), tt))))
    None.



(** [atanh] and [inverse] on one element. *)
Definition atanh1 (y : R) : R := TanhBijector.atanh [] y.
Definition inverse1 (dt : Torch.dtype) (y : R) : R := TanhBijector.inverse dt [] y.


(** [torch.log1p] is finite on the numbers above [-1]; it is [-inf] at [-1]
    and [nan] below. *)
Definition log1p_finite (x : R) : Prop := -1 < x.

(** The log-probability as the specification words it: the log-density of
    the base distribution at the pre-squash value [x], summed, minus the sum
    of [log(1 - tanh(x)^2 + epsilon)]. *)
Definition claimed_log_prob (dt : Torch.dtype) (s : shape) (d : Normal.t s) (epsilon : R)
  (action : tensor R s) (gaussian_action : option (tensor R s))
  : result (tensor R (sid_shape s)) :=
  let x := match gaussian_action with
           | None => TanhBijector.inverse dt s action
           | Some g => g
           end in
  correction <- sum_dim1 s (TanhBijector.log_prob_correction (TanhBijector.make epsilon) s x) ;;
  Ok (Torch.sub (sid_shape s) (sum_independent_dims s (Normal.log_prob s d x)) correction).

(** An object built with [use_expln=True] and the default [epsilon], after
    [proba_distribution_net] with one feature and one action dimension. *)
Definition sde_expln_example : StateDependentNoiseDistribution.t :=
  StateDependentNoiseDistribution.make 1 (Some 1%nat) true true
    StateDependentNoiseDistribution.default_epsilon false None
    None None None None None.

(** A squashed distribution on which [proba_distribution] has run: one row,
    one action dimension, mean 0 and standard deviation 1, the default
    [epsilon]. *)
Definition squashed_example : SquashedDiagGaussianDistribution.t :=
  SquashedDiagGaussianDistribution.make
    (DiagGaussianDistribution.make
       (Some (existT _ [1%nat; 1%nat]
                (Normal.make (s := [1%nat; 1%nat]) ((0, tt), tt) ((1, tt), tt))))
       1)
    SquashedDiagGaussianDistribution.default_epsilon None.

(** The two dimensions of the tensors of an object. *)
Local Abbreviation sde_features self :=
  (StateDependentNoiseDistribution.ldim (StateDependentNoiseDistribution.latent_sde_dim self)).
Local Abbreviation sde_actions self := (StateDependentNoiseDistribution.action_dim self).

(** * Properties *)

(** ** Tensors: indexing the results of the operations *)

Section VecFacts.
Variables A B C : Type.

Lemma vnth_vmap (f : A -> B) (da : A) (db : B) (n : nat) (v : vec A n) (i : nat) :
  (i < n)%nat -> vnth db n (vmap f n v) i = f (vnth da n v i).
Proof.
  revert i v; induction n as [|n IH]; intros i v Hi; [lia|].
  destruct i as [|i]; simpl; [reflexivity|].
  apply IH; lia.
Qed.

Lemma vnth_vmap2 (f : A -> B -> C) (da : A) (db : B) (dc : C) (n : nat)
  (v : vec A n) (w : vec B n) (i : nat) :
  (i < n)%nat -> vnth dc n (vmap2 f n v w) i = f (vnth da n v i) (vnth db n w i).
Proof.
  revert i v w; induction n as [|n IH]; intros i v w Hi; [lia|].
  destruct i as [|i]; simpl; [reflexivity|].
  apply IH; lia.
Qed.

Lemma vnth_vrepeat (x d : A) (n i : nat) :
  (i < n)%nat -> vnth d n (vrepeat x n) i = x.
Proof.
  revert i; induction n as [|n IH]; intros i Hi; [lia|].
  destruct i as [|i]; simpl; [reflexivity|].
  apply IH; lia.
Qed.

Lemma vnth_default (d d' : A) (n : nat) (v : vec A n) (i : nat) :
  (i < n)%nat -> vnth d n v i = vnth d' n v i.
Proof.
  revert i v; induction n as [|n IH]; intros i v Hi; [lia|].
  destruct i as [|i]; simpl; [reflexivity|].
  apply IH; lia.
Qed.

Lemma vnth_out (d : A) (n : nat) (v : vec A n) (i : nat) :
  (n <= i)%nat -> vnth d n v i = d.
Proof.
  revert i v; induction n as [|n IH]; intros i v Hi; [reflexivity|].
  destruct i as [|i]; simpl; [lia|].
  apply IH; lia.
Qed.

Lemma vmap_ext (f g : A -> B) (n : nat) (v : vec A n) :
  (forall x, f x = g x) -> vmap f n v = vmap g n v.
Proof.
  intros H; induction n as [|n IH]; simpl; [reflexivity|].
  now rewrite H, IH.
Qed.

Lemma vmap_vmap (f : A -> B) (g : B -> C) (n : nat) (v : vec A n) :
  vmap g n (vmap f n v) = vmap (fun x => g (f x)) n v.
Proof.
  induction n as [|n IH]; simpl; [reflexivity|].
  now rewrite IH.
Qed.

Lemma vec_ext (d : A) (n : nat) (v w : vec A n) :
  (forall i, (i < n)%nat -> vnth d n v i = vnth d n w i) -> v = w.
Proof.
  induction n as [|n IH]; intros H.
  - now destruct v, w.
  - destruct v as [x v], w as [y w]. f_equal.
    + apply (H O); lia.
    + apply IH. intros i Hi. apply (H (S i)); lia.
Qed.
End VecFacts.

Section TensorFacts.
Variables A B C : Type.

Lemma tmap_ext (f g : A -> B) (s : shape) (t : tensor A s) :
  (forall x, f x = g x) -> tmap f s t = tmap g s t.
Proof.
  intros H; revert t; induction s as [|n s IH]; simpl; intros t; [apply H|].
  now apply vmap_ext.
Qed.

Lemma tmap_tmap (f : A -> B) (g : B -> C) (s : shape) (t : tensor A s) :
  tmap g s (tmap f s t) = tmap (fun x => g (f x)) s t.
Proof.
  revert t; induction s as [|n s IH]; simpl; intros t; [reflexivity|].
  rewrite vmap_vmap. now apply vmap_ext.
Qed.

(** An elementwise function that keeps the default commutes with indexing. *)
Lemma tget_tmap (f : A -> B) (da : A) (db : B) (s : shape) (t : tensor A s)
  (idx : list nat) :
  f da = db -> tget db s (tmap f s t) idx = f (tget da s t idx).
Proof.
  intros Hd; revert t idx; induction s as [|n s IH]; simpl; intros t idx.
  - destruct idx; [reflexivity | now rewrite Hd].
  - destruct idx as [|i idx]; [now rewrite Hd|].
    destruct (Nat.ltb_spec i n) as [Hi|Hi]; [|now rewrite Hd].
    rewrite vnth_vmap with (da := tfull da s) by assumption.
    apply IH.
Qed.

Lemma tget_tmap2 (f : A -> B -> C) (da : A) (db : B) (dc : C) (s : shape)
  (t : tensor A s) (u : tensor B s) (idx : list nat) :
  f da db = dc ->
  tget dc s (tmap2 f s t u) idx = f (tget da s t idx) (tget db s u idx).
Proof.
  intros Hd; revert t u idx; induction s as [|n s IH]; simpl; intros t u idx.
  - destruct idx; [reflexivity | now rewrite Hd].
  - destruct idx as [|i idx]; [now rewrite Hd|].
    destruct (Nat.ltb_spec i n) as [Hi|Hi]; [|now rewrite Hd].
    rewrite vnth_vmap2 with (da := tfull da s) (db := tfull db s) by assumption.
    apply IH.
Qed.

Lemma tmap_ext_forall (P : A -> Prop) (f g : A -> B) (s : shape) (t : tensor A s) :
  tforall P s t -> (forall x, P x -> f x = g x) -> tmap f s t = tmap g s t.
Proof.
  intros Ht H; revert t Ht; induction s as [|n s IH]; simpl; intros t Ht;
    [now apply H|].
  induction n as [|n IHn]; simpl; [reflexivity|].
  destruct t as [x t], Ht as [Hx Ht]; simpl in *.
  now rewrite IH, IHn.
Qed.


Lemma tget_tfull (x : A) (s : shape) (idx : list nat) :
  tget x s (tfull x s) idx = x.
Proof.
  revert idx; induction s as [|n s IH]; simpl; intros idx.
  - now destruct idx.
  - destruct idx as [|i idx]; [reflexivity|].
    destruct (Nat.ltb_spec i n) as [Hi|Hi]; [|reflexivity].
    rewrite vnth_vrepeat by assumption. apply IH.
Qed.
End TensorFacts.


Lemma tforall_tfull (A : Type) (P : A -> Prop) (x : A) (s : shape) :
  P x -> tforall P s (tfull x s).
Proof.
  intros H; induction s as [|n s IH]; simpl; [assumption|].
  induction n as [|n IHn]; simpl; [trivial | now split].
Qed.

Lemma tmap2_diag (A B C D : Type) (f : B -> C -> D) (g : A -> B) (h : A -> C)
  (s : shape) (t : tensor A s) :
  tmap2 f s (tmap g s t) (tmap h s t) = tmap (fun x => f (g x) (h x)) s t.
Proof.
  revert t; induction s as [|n s IH]; simpl; intros t; [reflexivity|].
  induction n as [|n IHn]; simpl; [reflexivity|].
  destruct t as [x t]; simpl. now rewrite IH, IHn.
Qed.


(** ** Sums *)

Lemma big_sum_ext (n : nat) (f g : nat -> R) :
  (forall k, (k < n)%nat -> f k = g k) -> big_sum n f = big_sum n g.
Proof.
  revert f g; induction n as [|n IH]; intros f g H; simpl; [reflexivity|].
  rewrite (H O) by lia. f_equal.
  apply IH. intros k Hk. apply H. lia.
Qed.

Lemma big_sum_zero (n : nat) : big_sum n (fun _ => 0) = 0.
Proof. induction n as [|n IH]; simpl; [reflexivity | rewrite IH; lra]. Qed.

Lemma sum_vector (n : nat) (t : tensor R [n]) :
  Torch.sum [n] t = big_sum n (fun k => vnth 0 n t k).
Proof.
  induction n as [|n IH]; simpl; [reflexivity|].
  destruct t as [x t]; simpl. f_equal. apply IH.
Qed.

Lemma tget_add (s : shape) (t u : tensor R s) (idx : list nat) :
  tget 0 s (Torch.add s t u) idx = tget 0 s t idx + tget 0 s u idx.
Proof. unfold Torch.add. apply tget_tmap2. lra. Qed.

Lemma tget_zeros (s : shape) (idx : list nat) : tget 0 s (Torch.zeros s) idx = 0.
Proof. apply tget_tfull. Qed.

Lemma tget_fold_add (s : shape) (n : nat) (row : tensor R (n :: s)) (idx : list nat) :
  tget 0 s (vfold (Torch.add s) (Torch.zeros s) n row) idx
  = big_sum n (fun k => tget 0 s (vnth (tfull 0 s) n row k) idx).
Proof.
  induction n as [|n IH]; simpl.
  - apply tget_zeros.
  - destruct row as [x row]; simpl. rewrite tget_add. f_equal. apply IH.
Qed.

Lemma tget_sum_axis1 (b n : nat) (rest : shape) (t : tensor R (b :: n :: rest))
  (i : nat) (js : list nat) :
  tget 0 (b :: rest) (Torch.sum_axis1 b n rest t) (i :: js)
  = big_sum n (fun k => tget 0 (b :: n :: rest) t (i :: k :: js)).
Proof.
  unfold Torch.sum_axis1. cbn [tget].
  destruct (Nat.ltb_spec i b) as [Hi|Hi].
  - rewrite vnth_vmap with (da := tfull 0 (n :: rest)) by assumption.
    rewrite tget_fold_add. apply big_sum_ext. intros k Hk.
    apply Nat.ltb_lt in Hk. now rewrite Hk.
  - symmetry. apply big_sum_zero.
Qed.

Lemma at_shape_same (s : shape) (d : Normal.t s) :
  Normal.at_shape s (existT _ s d) = Some d.
Proof.
  unfold Normal.at_shape; simpl.
  destruct (shape_eq_dec s s) as [e|ne]; [|contradiction].
  now rewrite <- (Eqdep_dec.eq_rect_eq_dec shape_eq_dec).
Qed.

Lemma dyn_at_same (s : shape) (t : tensor R s) : dyn_at s (existT _ s t) = Some t.
Proof.
  unfold dyn_at; simpl.
  destruct (shape_eq_dec s s) as [e|ne]; [|contradiction].
  now rewrite <- (Eqdep_dec.eq_rect_eq_dec shape_eq_dec).
Qed.

(** The branch taken by [sum_independent_dims] is the one of the source:
    the second one exactly when [len(tensor.shape) > 1]. *)
Lemma sum_independent_dims_rank (s : shape) :
  (1 <? rank s)%nat = true <-> exists b n rest, s = b :: n :: rest.
Proof.
  destruct s as [|b [|n rest]]; simpl; split; intros H;
    try discriminate; try reflexivity;
    try (destruct H as (b' & n' & rest' & H); discriminate).
  now exists b, n, rest.
Qed.

(** Push an in-range [vnth] through elementwise operations on vectors of
    reals. *)
Ltac vnth_elementwise :=
  repeat first
    [ rewrite vnth_vmap with (da := 0) by assumption
    | rewrite vnth_vmap2 with (da := 0) (db := 0) by assumption ].

(** One element of the log-density and of the entropy of [Normal]. *)
Lemma vnth_normal_log_prob (n : nat) (d : Normal.t [n]) (x : tensor R [n]) (k : nat) :
  (k < n)%nat ->
  vnth 0 n (Normal.log_prob [n] d x) k
  = normal_log_density (vnth 0 n (Normal.loc d) k) (vnth 0 n (Normal.scale d) k)
      (vnth 0 n x k).
Proof.
  intros Hk. unfold Normal.log_prob, Torch.subs, Torch.sub, Torch.div, Torch.neg,
    Torch.pow2, Torch.rmuls, Torch.log. cbn [tmap tmap2 tensor].
  vnth_elementwise. reflexivity.
Qed.

Lemma vnth_normal_entropy (n : nat) (d : Normal.t [n]) (k : nat) :
  (k < n)%nat ->
  vnth 0 n (Normal.entropy [n] d) k = normal_entropy (vnth 0 n (Normal.scale d) k).
Proof.
  intros Hk. unfold Normal.entropy, Torch.log. cbn [tmap tensor].
  vnth_elementwise. reflexivity.
Qed.

(** ** Batches of rows *)

Lemma fold_add_scalars (n : nat) (row : tensor R [n]) :
  vfold (Torch.add []) (Torch.zeros []) n row = big_sum n (fun k => vnth 0 n row k).
Proof.
  induction n as [|n IH]; simpl; [reflexivity|].
  destruct row as [x row]; simpl. unfold Torch.add at 1; simpl. f_equal. apply IH.
Qed.

Lemma row_sum_axis1 (b n : nat) (t : tensor R [b; n]) (i : nat) :
  (i < b)%nat ->
  vnth 0 b (Torch.sum_axis1 b n [] t) i = big_sum n (fun k => elem2 b n t i k).
Proof.
  intros Hi. unfold Torch.sum_axis1.
  rewrite vnth_vmap with (da := tfull 0 [n]) by assumption.
  apply fold_add_scalars.
Qed.

Lemma elem2_tmap (f : R -> R) (b n : nat) (t : tensor R [b; n]) (i k : nat) :
  (i < b)%nat -> (k < n)%nat ->
  elem2 b n (tmap f [b; n] t) i k = f (elem2 b n t i k).
Proof.
  intros Hi Hk. unfold elem2. cbn [tmap tensor].
  rewrite vnth_vmap with (da := tfull 0 [n]) by assumption.
  now rewrite vnth_vmap with (da := 0) by assumption.
Qed.

Lemma elem2_tmap2 (f : R -> R -> R) (b n : nat) (t u : tensor R [b; n]) (i k : nat) :
  (i < b)%nat -> (k < n)%nat ->
  elem2 b n (tmap2 f [b; n] t u) i k = f (elem2 b n t i k) (elem2 b n u i k).
Proof.
  intros Hi Hk. unfold elem2. cbn [tmap2 tensor].
  rewrite vnth_vmap2 with (da := tfull 0 [n]) (db := tfull 0 [n]) by assumption.
  now rewrite vnth_vmap2 with (da := 0) (db := 0) by assumption.
Qed.

Lemma elem2_normal_log_prob (b n : nat) (d : Normal.t [b; n]) (x : tensor R [b; n])
  (i k : nat) :
  (i < b)%nat -> (k < n)%nat ->
  elem2 b n (Normal.log_prob [b; n] d x) i k
  = normal_log_density (elem2 b n (Normal.loc d) i k) (elem2 b n (Normal.scale d) i k)
      (elem2 b n x i k).
Proof.
  intros Hi Hk. unfold Normal.log_prob, Torch.subs, Torch.sub, Torch.div, Torch.neg,
    Torch.pow2, Torch.rmuls, Torch.log.
  repeat first [ rewrite elem2_tmap by assumption | rewrite elem2_tmap2 by assumption ].
  reflexivity.
Qed.

Lemma elem2_action_std (b d : nat) (log_std : tensor R [d]) (i k : nat) :
  (i < b)%nat -> (k < d)%nat ->
  elem2 b d (Torch.mul [b; d] (Torch.ones [b; d])
               (DiagGaussianDistribution.expand_last [b] d (Torch.exp [d] log_std))) i k
  = 1 * exp (vnth 0 d log_std k).
Proof.
  intros Hi Hk. unfold Torch.mul. rewrite elem2_tmap2 by assumption.
  unfold elem2, Torch.ones, Torch.exp.
  cbn [tfull tmap tensor DiagGaussianDistribution.expand_last app].
  rewrite !vnth_vrepeat by assumption.
  now rewrite vnth_vmap with (da := 0) by assumption.
Qed.

(** ** [sum_independent_dims] and unbatched inputs *)

Lemma vnth_action_std (d : nat) (log_std : tensor R [d]) (k : nat) :
  (k < d)%nat ->
  vnth 0 d (Torch.mul [d] (Torch.ones [d]) (Torch.exp [d] log_std)) k
  = 1 * exp (vnth 0 d log_std k).
Proof.
  intros Hk. unfold Torch.mul, Torch.ones, Torch.exp. cbn [tmap tmap2 tfull tensor].
  vnth_elementwise. now rewrite vnth_vrepeat by assumption.
Qed.

(** C9.  A tensor of rank 1 is summed into one scalar, the sum of all its
    elements; a tensor of rank 2 or more is summed along axis 1 only: the
    element [(i, js)] of the result is the sum over [k] of the elements
    [(i, k, js)].  So [DiagGaussianDistribution.log_prob] and [entropy] on an
    unbatched mean of shape [(d,)] give one scalar, the sum over the [d]
    action dimensions of the log-densities (of the entropies), where a batch
    of [b] rows gives [b] values, one sum for each row. *)
Theorem sum_independent_dims_by_rank :
  (forall (n : nat) (t : tensor R [n]),
      sum_independent_dims [n] t = big_sum n (fun k => vnth 0 n t k))
  /\ (forall (b n : nat) (rest : shape) (t : tensor R (b :: n :: rest))
             (i : nat) (js : list nat),
         tget 0 (b :: rest) (sum_independent_dims (b :: n :: rest) t) (i :: js)
         = big_sum n (fun k => tget 0 (b :: n :: rest) t (i :: k :: js)))
  /\ (forall (d : nat) (self : DiagGaussianDistribution.t)
             (mean_actions log_std action : tensor R [d]),
         let self' :=
           DiagGaussianDistribution.proba_distribution [] d self mean_actions log_std in
         DiagGaussianDistribution.log_prob [d] self' action
         = Ok (big_sum d (fun k =>
                 normal_log_density (vnth 0 d mean_actions k)
                   (1 * exp (vnth 0 d log_std k)) (vnth 0 d action k)))
         /\ DiagGaussianDistribution.entropy self'
            = Ok (existT _ []
                    (big_sum d (fun k => normal_entropy (1 * exp (vnth 0 d log_std k))))))
  /\ (forall (b d : nat) (self : DiagGaussianDistribution.t)
             (mean_actions action : tensor R [b; d]) (log_std : tensor R [d]),
         exists lp : tensor R [b],
           DiagGaussianDistribution.log_prob [b; d]
             (DiagGaussianDistribution.proba_distribution [b] d self mean_actions log_std)
             action
           = Ok lp
           /\ forall i, (i < b)%nat ->
                vnth 0 b lp i
                = big_sum d (fun k =>
                    normal_log_density (elem2 b d mean_actions i k)
                      (1 * exp (vnth 0 d log_std k)) (elem2 b d action i k))).
Proof.
  split; [|split; [|split]].
  - intros n t. apply sum_vector.
  - intros b n rest t i js. apply tget_sum_axis1.
  - intros d self mean_actions log_std action self'. split.
    + unfold DiagGaussianDistribution.log_prob, self',
        DiagGaussianDistribution.proba_distribution.
      cbn [DiagGaussianDistribution.distribution app].
      rewrite at_shape_same. f_equal.
      cbn [sum_independent_dims]. rewrite sum_vector.
      apply big_sum_ext. intros k Hk.
      rewrite vnth_normal_log_prob by assumption.
      cbn [Normal.loc Normal.scale DiagGaussianDistribution.expand_last].
      now rewrite vnth_action_std.
    + unfold DiagGaussianDistribution.entropy, self',
        DiagGaussianDistribution.proba_distribution.
      cbn [DiagGaussianDistribution.distribution app]. do 2 f_equal.
      cbn [sum_independent_dims]. rewrite sum_vector.
      apply big_sum_ext. intros k Hk.
      rewrite vnth_normal_entropy by assumption.
      cbn [Normal.scale DiagGaussianDistribution.expand_last].
      now rewrite vnth_action_std.
  - intros b d self mean_actions action log_std. eexists. split.
    + unfold DiagGaussianDistribution.log_prob,
        DiagGaussianDistribution.proba_distribution.
      cbn [DiagGaussianDistribution.distribution app].
      rewrite at_shape_same. reflexivity.
    + intros i Hi. cbn [sum_independent_dims].
      rewrite row_sum_axis1 by assumption.
      apply big_sum_ext. intros k Hk.
      rewrite elem2_normal_log_prob by assumption.
      cbn [Normal.loc Normal.scale].
      now rewrite elem2_action_std.
Qed.

(** ** The factory *)

Lemma get_action_dim_vector (d : nat) : get_action_dim (Box [d]) = d.
Proof. simpl. apply Nat.mul_1_r. Qed.

(** C6.  Called without keyword arguments, the factory builds, for a box of
    shape [(d,)], a [StateDependentNoiseDistribution] when [use_sde] is set and
    a [DiagGaussianDistribution] otherwise, each with [action_dim = d]; for
    [Discrete(n)] a [CategoricalDistribution] with [action_dim = n]; for a box
    whose shape has another length it fails on the assertion; for every other
    space it fails with [NotImplementedError]. *)
Theorem make_proba_distribution_dispatch :
  (forall d : nat,
      make_proba_distribution (Box [d]) true None
      = Ok (IsStateDependentNoise
              (StateDependentNoiseDistribution.init d true false false false
                 StateDependentNoiseDistribution.default_epsilon))
      /\ StateDependentNoiseDistribution.action_dim
           (StateDependentNoiseDistribution.init d true false false false
              StateDependentNoiseDistribution.default_epsilon) = d)
  /\ (forall d : nat,
         make_proba_distribution (Box [d]) false None
         = Ok (IsDiagGaussian (DiagGaussianDistribution.init d))
         /\ DiagGaussianDistribution.action_dim (DiagGaussianDistribution.init d) = d)
  /\ (forall (n : nat) (use_sde : bool),
         make_proba_distribution (Discrete n) use_sde None
         = Ok (IsCategorical (CategoricalDistribution.init n))
         /\ CategoricalDistribution.action_dim (CategoricalDistribution.init n) = n)
  /\ (forall (shape : list nat) (use_sde : bool),
         List.length shape <> 1%nat ->
         make_proba_distribution (Box shape) use_sde None = Raise UnsupportedShapeError)
  /\ (forall (action_space : Space) (use_sde : bool),
         (forall shape, action_space <> Box shape) ->
         (forall n, action_space <> Discrete n) ->
         make_proba_distribution action_space use_sde None
         = Raise (UnsupportedActionSpaceError action_space)).
Proof.
  split; [|split; [|split; [|split]]].
  - intros d. split; [|reflexivity].
    unfold make_proba_distribution. cbn [List.length Nat.eqb].
    now rewrite get_action_dim_vector.
  - intros d. split; [|reflexivity].
    unfold make_proba_distribution. cbn [List.length Nat.eqb].
    now rewrite get_action_dim_vector.
  - intros n use_sde. split; reflexivity.
  - intros shape use_sde Hlen. unfold make_proba_distribution.
    apply Nat.eqb_neq in Hlen. now rewrite Hlen.
  - intros action_space use_sde Hbox Hdisc.
    destruct action_space as [shape|n|nvec|n| |]; try reflexivity.
    + now contradiction (Hbox shape).
    + now contradiction (Hdisc n).
Qed.

Lemma make_proba_distribution_dispatch_witness :
  make_proba_distribution (Box [2%nat; 3%nat]) false None = Raise UnsupportedShapeError
  /\ make_proba_distribution (MultiBinary 4) true None
     = Raise (UnsupportedActionSpaceError (MultiBinary 4)).
Proof.
  destruct make_proba_distribution_dispatch as (_ & _ & _ & Hshape & Hother).
  split.
  - apply Hshape. simpl. lia.
  - apply Hother; intros; discriminate.
Defined.

(** C10.  For a discrete space the result does not depend on [use_sde],
    whatever the keyword arguments; without keyword arguments it is a
    [CategoricalDistribution] and no error. *)
Theorem make_proba_distribution_discrete_ignores_use_sde :
  forall (n : nat) (use_sde : bool),
    (forall dist_kwargs : option kwargs,
        make_proba_distribution (Discrete n) use_sde dist_kwargs
        = make_proba_distribution (Discrete n) (negb use_sde) dist_kwargs)
    /\ make_proba_distribution (Discrete n) use_sde None
       = Ok (IsCategorical (CategoricalDistribution.init n)).
Proof.
  intros n use_sde. split; [intros dist_kwargs|]; reflexivity.
Qed.

(** ** Entropy *)

(** C8.  [SquashedDiagGaussianDistribution.entropy] is always [None].
    [StateDependentNoiseDistribution.entropy] is [None] exactly when a bijector
    is attached; without one, and once [proba_distribution] has set the
    distribution, it is, for every row of the batch, the sum over the action
    dimensions of the entropies of the normal variables. *)
Theorem entropy_none_iff_squashed :
  (forall self : SquashedDiagGaussianDistribution.t,
      SquashedDiagGaussianDistribution.entropy self = Ok None)
  /\ (forall self : StateDependentNoiseDistribution.t,
         StateDependentNoiseDistribution.entropy self = Ok None
         <-> StateDependentNoiseDistribution.bijector self <> None)
  /\ (forall (self : StateDependentNoiseDistribution.t) (b : nat)
             (d : Normal.t [b; StateDependentNoiseDistribution.action_dim self]),
         StateDependentNoiseDistribution.bijector self = None ->
         StateDependentNoiseDistribution.distribution self = Some (existT _ b d) ->
         exists h : tensor R [b],
           StateDependentNoiseDistribution.entropy self = Ok (Some (existT _ b h))
           /\ forall i, (i < b)%nat ->
                vnth 0 b h i
                = big_sum (StateDependentNoiseDistribution.action_dim self)
                    (fun k => normal_entropy (elem2 b _ (Normal.scale d) i k))).
Proof.
  split; [|split].
  - reflexivity.
  - intros self. unfold StateDependentNoiseDistribution.entropy.
    destruct (StateDependentNoiseDistribution.bijector self) as [bij|].
    + split; [discriminate | reflexivity].
    + split; [|congruence].
      destruct (StateDependentNoiseDistribution.distribution self) as [[b d]|];
        discriminate.
  - intros self b d Hbij Hdist. unfold StateDependentNoiseDistribution.entropy.
    rewrite Hbij, Hdist. eexists. split; [reflexivity|].
    intros i Hi. cbn [sum_independent_dims].
    rewrite row_sum_axis1 by assumption.
    apply big_sum_ext. intros k Hk.
    unfold Normal.entropy. rewrite elem2_tmap by assumption.
    unfold Torch.log. now rewrite elem2_tmap by assumption.
Qed.

Lemma entropy_none_iff_squashed_witness :
  exists h : tensor R [1%nat],
    StateDependentNoiseDistribution.entropy sde_example = Ok (Some (existT _ 1%nat h))
    /\ forall i, (i < 1)%nat ->
         vnth 0 1 h i
         = big_sum 1 (fun k => normal_entropy (elem2 1 1 ((1, tt), tt) i k)).
Proof.
  destruct entropy_none_iff_squashed as (_ & _ & H).
  apply (H sde_example 1%nat (Normal.make (s := [1%nat; 1%nat]) ((0, tt), tt) ((1, tt), tt)));
    reflexivity.
Defined.

(** ** Exploration noise *)

Lemma vnth_fold_add (a f : nat) (rows : tensor R [f; a]) (j : nat) :
  (j < a)%nat ->
  vnth 0 a (vfold (Torch.add [a]) (Torch.zeros [a]) f rows) j
  = big_sum f (fun k => elem2 f a rows k j).
Proof.
  intros Hj. induction f as [|f IH]; simpl.
  - unfold Torch.zeros. cbn [tfull]. now apply vnth_vrepeat.
  - destruct rows as [r rows]. cbn [fst snd].
    unfold Torch.add at 1. cbn [tmap2 tensor].
    rewrite vnth_vmap2 with (da := 0) (db := 0) by assumption.
    unfold elem2 at 1. cbn [vnth fst]. f_equal. apply IH.
Qed.

Lemma vecmat_elem (f a : nat) (r : tensor R [f]) (m : tensor R [f; a]) (j : nat) :
  (j < a)%nat ->
  vnth 0 a (Torch.vecmat f a r m) j
  = big_sum f (fun k => vnth 0 f r k * elem2 f a m k j).
Proof.
  intros Hj. unfold Torch.vecmat. rewrite vnth_fold_add by assumption.
  apply big_sum_ext. intros k Hk. unfold elem2.
  rewrite vnth_vmap2 with (da := 0) (db := tfull 0 [a]) by assumption.
  unfold Torch.rmuls. cbn [tmap tensor].
  now rewrite vnth_vmap with (da := 0) by assumption.
Qed.

Lemma mm_elem (b f a : nat) (x : tensor R [b; f]) (m : tensor R [f; a]) (i j : nat) :
  (i < b)%nat -> (j < a)%nat ->
  elem2 b a (Torch.mm b f a x m) i j
  = big_sum f (fun k => elem2 b f x i k * elem2 f a m k j).
Proof.
  intros Hi Hj. unfold elem2 at 1, Torch.mm.
  rewrite vnth_vmap with (da := tfull 0 [f]) by assumption.
  now apply vecmat_elem.
Qed.

Lemma per_sample_elem (b f a : nat) (x : tensor R [b; f]) (mats : tensor R [b; f; a])
  (i j : nat) :
  (i < b)%nat -> (j < a)%nat ->
  elem2 b a (Torch.squeeze1 b a (Torch.bmm b 1 f a (Torch.unsqueeze1 b f x) mats)) i j
  = big_sum f (fun k => elem2 b f x i k * elem3 b f a mats i k j).
Proof.
  intros Hi Hj. unfold elem2 at 1, Torch.squeeze1, Torch.bmm, Torch.unsqueeze1.
  rewrite vnth_vmap with (da := tfull 0 [1%nat; a]) by assumption.
  rewrite vnth_vmap2 with (da := tfull 0 [1%nat; f]) (db := tfull 0 [f; a])
    by assumption.
  rewrite vnth_vmap with (da := tfull 0 [f]) by assumption.
  unfold Torch.mm. cbn [vmap fst].
  now apply vecmat_elem.
Qed.

(** [sample_weights] leaves one shared matrix and [batch_size] per-sample
    matrices. *)
Lemma sample_weights_count (self self' : StateDependentNoiseDistribution.t)
  (log_std : tensor R (StateDependentNoiseDistribution.log_std_shape self))
  (batch_size : nat) eps1 epsn :
  StateDependentNoiseDistribution.sample_weights self log_std batch_size eps1 epsn = Ok self' ->
  StateDependentNoiseDistribution.exploration_mat self' <> None
  /\ exists n mats,
       StateDependentNoiseDistribution.exploration_matrices self' = Some (existT _ n mats)
       /\ n = batch_size.
Proof.
  unfold StateDependentNoiseDistribution.sample_weights.
  destruct (StateDependentNoiseDistribution.get_std self log_std) as [std|e];
    simpl; [|discriminate].
  intros H; injection H as <-; simpl. split; [discriminate|].
  eexists _, _. split; reflexivity.
Qed.

(** C7.  With a batch of one row, or a batch whose length differs from the
    number of per-sample exploration matrices, the noise is the product of the
    features with the single matrix [exploration_mat], the same for every row:
    [noise[i, j] = sum_k latent_sde[i, k] * exploration_mat[k, j]].  Otherwise
    row [i] is multiplied with its own matrix:
    [noise[i, j] = sum_k latent_sde[i, k] * exploration_matrices[i, k, j]]. *)
Theorem get_noise_cases :
  (forall (self : StateDependentNoiseDistribution.t) (b : nat)
          (latent_sde : tensor R [b; sde_features self])
          (m : tensor R [sde_features self; sde_actions self]) (n : nat)
          (mats : tensor R [n; sde_features self; sde_actions self]),
      StateDependentNoiseDistribution.exploration_mat self = Some m ->
      b = 1%nat
      \/ (StateDependentNoiseDistribution.exploration_matrices self = Some (existT _ n mats)
          /\ b <> n) ->
      exists noise,
        StateDependentNoiseDistribution.get_noise self b latent_sde = Ok noise
        /\ forall i j, (i < b)%nat -> (j < sde_actions self)%nat ->
             elem2 b (sde_actions self) noise i j
             = big_sum (sde_features self)
                 (fun k => elem2 b (sde_features self) latent_sde i k
                           * elem2 (sde_features self) (sde_actions self) m k j))
  /\ (forall (self : StateDependentNoiseDistribution.t) (b : nat)
             (latent_sde : tensor R [b; sde_features self])
             (mats : tensor R [b; sde_features self; sde_actions self]),
         StateDependentNoiseDistribution.exploration_matrices self = Some (existT _ b mats) ->
         b <> 1%nat ->
         exists noise,
           StateDependentNoiseDistribution.get_noise self b latent_sde = Ok noise
           /\ forall i j, (i < b)%nat -> (j < sde_actions self)%nat ->
                elem2 b (sde_actions self) noise i j
                = big_sum (sde_features self)
                    (fun k => elem2 b (sde_features self) latent_sde i k
                              * elem3 b (sde_features self) (sde_actions self) mats i k j)).
Proof.
  split.
  - intros self b latent_sde m n mats Hmat Hcase.
    exists (Torch.mm b _ _ latent_sde m). split.
    + unfold StateDependentNoiseDistribution.get_noise. rewrite Hmat.
      destruct Hcase as [-> | [Hmats Hne]]; [reflexivity|].
      rewrite Hmats.
      destruct (b =? 1)%nat; [reflexivity|].
      destruct (Nat.eq_dec n b) as [e|_]; [congruence | reflexivity].
    + intros i j Hi Hj. now apply mm_elem.
  - intros self b latent_sde mats Hmats Hb.
    exists (Torch.squeeze1 b _ (Torch.bmm b 1 _ _ (Torch.unsqueeze1 b _ latent_sde) mats)).
    split.
    + unfold StateDependentNoiseDistribution.get_noise. rewrite Hmats.
      apply Nat.eqb_neq in Hb. rewrite Hb.
      destruct (Nat.eq_dec b b) as [e|ne]; [|contradiction].
      now rewrite <- (Eqdep_dec.eq_rect_eq_dec Nat.eq_dec).
    + intros i j Hi Hj. now apply per_sample_elem.
Qed.

Lemma get_noise_cases_witness :
  (exists noise,
      StateDependentNoiseDistribution.get_noise sde_noise_example 1 ((7, tt), tt) = Ok noise
      /\ forall i j, (i < 1)%nat -> (j < 1)%nat ->
           elem2 1 1 noise i j
           = big_sum 1 (fun k => elem2 1 1 ((7, tt), tt) i k * elem2 1 1 ((2, tt), tt) k j))
  /\ (exists noise,
         StateDependentNoiseDistribution.get_noise sde_noise_example 2
           ((7, tt), ((11, tt), tt)) = Ok noise
         /\ forall i j, (i < 2)%nat -> (j < 1)%nat ->
              elem2 2 1 noise i j
              = big_sum 1 (fun k =>
                  elem2 2 1 ((7, tt), ((11, tt), tt)) i k
                  * elem3 2 1 1 (((3, tt), tt), (((5, tt), tt), tt)) i k j)).
Proof.
  destruct get_noise_cases as [Hshared Hown]. split.
  - apply (Hshared sde_noise_example 1%nat ((7, tt), tt) ((2, tt), tt) 2%nat
             (((3, tt), tt), (((5, tt), tt), tt))).
    + reflexivity.
    + now left.
  - apply (Hown sde_noise_example 2%nat ((7, tt), ((11, tt), tt))
             (((3, tt), tt), (((5, tt), tt), tt))).
    + reflexivity.
    + discriminate.
Defined.

(** ** Logarithms and the hyperbolic tangent *)

Section RealFacts.

Lemma ln_le (x y : R) : 0 < x -> x <= y -> ln x <= ln y.
Proof.
  intros Hx [Hlt | ->]; [|lra].
  left. now apply ln_increasing.
Qed.

Lemma ln_div (x y : R) : 0 < x -> 0 < y -> ln (x / y) = ln x - ln y.
Proof.
  intros Hx Hy. unfold Rdiv.
  rewrite ln_mult by (try apply Rinv_0_lt_compat; assumption).
  rewrite ln_Rinv by assumption. ring.
Qed.




Lemma tanh_exp (x : R) : tanh x = (exp x - exp (- x)) / (exp x + exp (- x)).
Proof.
  unfold tanh, sinh, cosh.
  pose proof (exp_pos x). pose proof (exp_pos (- x)).
  field. lra.
Qed.


Lemma atanh1_eq (y : R) : atanh1 y = / 2 * (ln (1 + y) - ln (1 - y)).
Proof. reflexivity. Qed.


Lemma tanh_atanh1 (y : R) : -1 < y < 1 -> tanh (atanh1 y) = y.
Proof.
  intros Hy. rewrite tanh_exp, atanh1_eq.
  assert (Ea : exp (/ 2 * (ln (1 + y) - ln (1 - y))) * exp (/ 2 * (ln (1 + y) - ln (1 - y)))
               = (1 + y) / (1 - y)).
  { rewrite <- exp_plus.
    replace (/ 2 * (ln (1 + y) - ln (1 - y)) + / 2 * (ln (1 + y) - ln (1 - y)))
      with (ln (1 + y) - ln (1 - y)) by lra.
    rewrite <- ln_div by lra. apply exp_ln.
    apply Rdiv_lt_0_compat; lra. }
  rewrite exp_Ropp.
  set (a := exp (/ 2 * (ln (1 + y) - ln (1 - y)))) in *.
  assert (Ha : 0 < a) by apply exp_pos.
  assert (Haa : a * a * (1 - y) = 1 + y).
  { rewrite Ea. field. lra. }
  apply Rmult_eq_reg_r with (a + / a).
  2:{ assert (0 < / a) by now apply Rinv_0_lt_compat. lra. }
  assert (0 < / a) by now apply Rinv_0_lt_compat.
  unfold Rdiv. rewrite Rmult_assoc, Rinv_l by lra.
  apply Rmult_eq_reg_r with a; [|lra].
  replace ((a - / a) * 1 * a) with (a * a - 1) by (field; lra).
  replace (y * (a + / a) * a) with (y * (a * a + 1)) by (field; lra).
  nra.
Qed.

Lemma atanh1_odd (y : R) : atanh1 (- y) = - atanh1 y.
Proof.
  rewrite !atanh1_eq.
  replace (1 + - y) with (1 - y) by ring.
  replace (1 - - y) with (1 + y) by ring. ring.
Qed.

Lemma atanh1_le (y z : R) : -1 < y -> y <= z -> z < 1 -> atanh1 y <= atanh1 z.
Proof.
  intros Hy Hyz Hz. rewrite !atanh1_eq.
  assert (ln (1 + y) <= ln (1 + z)) by (apply ln_le; lra).
  assert (ln (1 - z) <= ln (1 - y)) by (apply ln_le; lra).
  lra.
Qed.


Lemma finfo_eps_bounds (dt : Torch.dtype) : 0 < Torch.finfo_eps dt < 1.
Proof. destruct dt; simpl; lra. Qed.

Lemma clampR_bounds (lo hi x : R) : lo <= hi -> lo <= Torch.clampR lo hi x <= hi.
Proof.
  intros H. unfold Torch.clampR, Rmin, Rmax.
  destruct (Rle_dec x lo); destruct (Rle_dec _ hi); lra.
Qed.

Lemma clampR_id (lo hi x : R) : lo <= x <= hi -> Torch.clampR lo hi x = x.
Proof.
  intros H. unfold Torch.clampR, Rmin, Rmax.
  destruct (Rle_dec x lo); destruct (Rle_dec _ hi); lra.
Qed.

Lemma clampR_above (lo hi x : R) : lo <= hi -> hi <= x -> Torch.clampR lo hi x = hi.
Proof.
  intros H Hx. unfold Torch.clampR, Rmin, Rmax.
  destruct (Rle_dec x lo); destruct (Rle_dec _ hi); lra.
Qed.


End RealFacts.

(** ** [TanhBijector] *)

(** [inverse] works element by element. *)
Lemma inverse_elementwise (dt : Torch.dtype) (s : shape) (y : tensor R s) :
  TanhBijector.inverse dt s y = tmap (inverse1 dt) s y.
Proof.
  unfold TanhBijector.inverse, TanhBijector.atanh, Torch.rmuls, Torch.sub,
    Torch.tlog1p, Torch.neg, Torch.clamp.
  rewrite !tmap_tmap, tmap2_diag, tmap_tmap. reflexivity.
Qed.

Lemma inverse1_eq (dt : Torch.dtype) (v : R) :
  inverse1 dt v
  = atanh1 (Torch.clampR (-1 + Torch.finfo_eps dt) (1 - Torch.finfo_eps dt) v).
Proof. reflexivity. Qed.







(** Without the clamp the logarithm is not finite at the end of the range. *)
Lemma atanh_unclamped_at_one : ~ log1p_finite (- 1).
Proof. unfold log1p_finite. lra. Qed.



(** ** [get_std] with [use_expln] *)











Lemma Ok_inj (A : Type) (a b : A) : Ok a = Ok b -> a = b.
Proof. intros E. now injection E. Qed.







(** ** [SquashedDiagGaussianDistribution.log_prob] *)

Lemma diag_log_prob_set (s : shape) (self : DiagGaussianDistribution.t)
  (d : Normal.t s) (x : tensor R s) :
  DiagGaussianDistribution.distribution self = Some (existT _ s d) ->
  DiagGaussianDistribution.log_prob s self x
  = Ok (sum_independent_dims s (Normal.log_prob s d x)).
Proof.
  intros H. unfold DiagGaussianDistribution.log_prob.
  now rewrite H, at_shape_same.
Qed.

(** The correction of the source is computed from the action. *)
Lemma action_correction (s : shape) (action : tensor R s) (epsilon : R) :
  Torch.log s (Torch.adds s (Torch.rsubs s 1 (Torch.pow2 s action)) epsilon)
  = tmap (fun a => ln (1 - a * a + epsilon)) s action.
Proof.
  unfold Torch.log, Torch.adds, Torch.rsubs, Torch.pow2.
  now rewrite !tmap_tmap.
Qed.

(** The correction of [TanhBijector] is computed from the pre-squash value. *)
Lemma bijector_correction (s : shape) (x : tensor R s) (epsilon : R) :
  TanhBijector.log_prob_correction (TanhBijector.make epsilon) s x
  = tmap (fun v => ln (1 - tanh v * tanh v + epsilon)) s x.
Proof.
  unfold TanhBijector.log_prob_correction, Torch.log, Torch.adds, Torch.rsubs,
    Torch.pow2, Torch.tanh.
  now rewrite !tmap_tmap.
Qed.

Lemma squashed_log_prob_unfold (dt : Torch.dtype) (s : shape)
  (self : SquashedDiagGaussianDistribution.t) (d : Normal.t s)
  (action : tensor R s) (cached : option (tensor R s)) :
  SquashedDiagGaussianDistribution.distribution self = Some (existT _ s d) ->
  SquashedDiagGaussianDistribution.log_prob dt s self action cached
  = (correction <-
       sum_dim1 s (tmap (fun a => ln (1 - a * a
                                      + SquashedDiagGaussianDistribution.epsilon self))
                     s action) ;;
     Ok (Torch.sub (sid_shape s)
           (sum_independent_dims s
              (Normal.log_prob s d
                 match cached with
                 | None => TanhBijector.inverse dt s action
                 | Some g => g
                 end))
           correction)).
Proof.
  intros H. unfold SquashedDiagGaussianDistribution.log_prob.
  rewrite (diag_log_prob_set s _ d) by exact H.
  now rewrite action_correction.
Qed.

(** On an element inside the clamp, [tanh] undoes [inverse]. *)
Lemma tanh_inverse1 (dt : Torch.dtype) (a : R) :
  -1 + Torch.finfo_eps dt <= a <= 1 - Torch.finfo_eps dt ->
  tanh (inverse1 dt a) = a.
Proof.
  intros Ha. pose proof (finfo_eps_bounds dt).
  rewrite inverse1_eq, clampR_id by assumption.
  apply tanh_atanh1. lra.
Qed.

(** C1, as the code has it.  Once [proba_distribution] has set the
    distribution, [log_prob] takes [x = inverse(action)], or the cached value
    when one is given, and returns the base log-density at [x] summed over the
    action dimensions minus the sum of [log(1 - action^2 + epsilon)]: the
    correction is computed from the action, not from [tanh(x)].  The two agree,
    and [log_prob] is the specification's formula, when every element of the
    action lies in [[-1 + eps, 1 - eps]] (no cached value), and when the action
    is [tanh] of the cached value. *)
Theorem squashed_log_prob_correction :
  forall (dt : Torch.dtype) (s : shape) (self : SquashedDiagGaussianDistribution.t)
         (d : Normal.t s) (action : tensor R s) (cached : option (tensor R s)),
    SquashedDiagGaussianDistribution.distribution self = Some (existT _ s d) ->
    let epsilon := SquashedDiagGaussianDistribution.epsilon self in
    let eps := Torch.finfo_eps dt in
    let x := match cached with
             | None => TanhBijector.inverse dt s action
             | Some g => g
             end in
    SquashedDiagGaussianDistribution.log_prob dt s self action cached
    = (correction <- sum_dim1 s (tmap (fun a => ln (1 - a * a + epsilon)) s action) ;;
       Ok (Torch.sub (sid_shape s)
             (sum_independent_dims s (Normal.log_prob s d x)) correction))
    /\ (cached = None ->
        tforall (fun a => -1 + eps <= a <= 1 - eps) s action ->
        SquashedDiagGaussianDistribution.log_prob dt s self action cached
        = claimed_log_prob dt s d epsilon action cached)
    /\ (forall g, cached = Some g ->
        action = Torch.tanh s g ->
        SquashedDiagGaussianDistribution.log_prob dt s self action cached
        = claimed_log_prob dt s d epsilon action cached).
Proof.
  intros dt s self d action cached Hd epsilon eps x.
  split; [|split].
  - now apply squashed_log_prob_unfold.
  - intros -> Hin. rewrite (squashed_log_prob_unfold dt s self d) by exact Hd.
    unfold claimed_log_prob. rewrite bijector_correction, inverse_elementwise.
    rewrite tmap_tmap. do 2 f_equal.
    apply tmap_ext_forall with (P := fun a => -1 + eps <= a <= 1 - eps); [assumption|].
    intros a Ha. cbv beta. now rewrite tanh_inverse1.
  - intros g -> ->. rewrite (squashed_log_prob_unfold dt s self d) by exact Hd.
    unfold claimed_log_prob. rewrite bijector_correction.
    unfold Torch.tanh. now rewrite tmap_tmap.
Qed.

Lemma squashed_log_prob_correction_witness :
  SquashedDiagGaussianDistribution.log_prob Torch.float32 [1%nat; 1%nat] squashed_example
    ((/ 2, tt), tt) None
  = claimed_log_prob Torch.float32 [1%nat; 1%nat]
      (Normal.make (s := [1%nat; 1%nat]) ((0, tt), tt) ((1, tt), tt))
      SquashedDiagGaussianDistribution.default_epsilon ((/ 2, tt), tt) None.
Proof.
  apply (squashed_log_prob_correction Torch.float32 [1%nat; 1%nat] squashed_example
           (Normal.make (s := [1%nat; 1%nat]) ((0, tt), tt) ((1, tt), tt))
           ((/ 2, tt), tt) None).
  - reflexivity.
  - reflexivity.
  - cbn. repeat split; lra.
Defined.

(** C1, as stated, fails at the end of the range: for the action [1] the
    source subtracts [log(1 - 1 + epsilon)], the specification's formula
    [log(1 - tanh(x)^2 + epsilon)] with [x = inverse(1) = atanh(1 - eps)]. *)
Lemma squashed_log_prob_at_one :
  SquashedDiagGaussianDistribution.log_prob Torch.float32 [1%nat; 1%nat] squashed_example
    ((1, tt), tt) None
  <> claimed_log_prob Torch.float32 [1%nat; 1%nat]
       (Normal.make (s := [1%nat; 1%nat]) ((0, tt), tt) ((1, tt), tt))
       SquashedDiagGaussianDistribution.default_epsilon ((1, tt), tt) None.
Proof.
  rewrite (squashed_log_prob_unfold Torch.float32 [1%nat; 1%nat] squashed_example
             (Normal.make (s := [1%nat; 1%nat]) ((0, tt), tt) ((1, tt), tt)))
    by reflexivity.
  unfold claimed_log_prob. rewrite bijector_correction, inverse_elementwise.
  cbn [sum_dim1 bind tmap vmap fst snd Torch.sum_axis1 vfold Torch.sub tmap2 vmap2
       sid_shape sum_independent_dims squashed_example
       SquashedDiagGaussianDistribution.epsilon Torch.add Torch.zeros tfull].
  intros E. injection E as E.
  assert (Ht : tanh (inverse1 Torch.float32 1) = 1 - / 8388608).
  { rewrite inverse1_eq. cbn [Torch.finfo_eps].
    rewrite clampR_above by lra. apply tanh_atanh1. lra. }
  rewrite Ht in E.
  unfold SquashedDiagGaussianDistribution.default_epsilon in E.
  assert (E' : ln (1 - 1 * 1 + / 1000000)
               = ln (1 - (1 - / 8388608) * (1 - / 8388608) + / 1000000)) by lra.
  apply ln_inv in E'; lra.
Qed.

(** ** Scenarios *)

Example sum_independent_dims_vector :
  sum_independent_dims [3%nat] (1, (2, (3, tt))) = 6.
Proof. cbn. lra. Qed.

Example sum_independent_dims_batch :
  sum_independent_dims [2%nat; 2%nat] ((1, (2, tt)), ((3, (4, tt)), tt)) = (3, (7, tt)).
Proof. cbn. repeat f_equal; lra. Qed.

Example sum_independent_dims_rank3 :
  sum_independent_dims [1%nat; 2%nat; 2%nat] (((1, (2, tt)), ((3, (4, tt)), tt)), tt)
  = ((4, (6, tt)), tt).
Proof. cbn. repeat f_equal; lra. Qed.

Example sum_dim1_vector : sum_dim1 [3%nat] (1, (2, (3, tt))) = Raise IndexError.
Proof. reflexivity. Qed.

Example factory_box4 :
  make_proba_distribution (Box [4%nat]) false None
  = Ok (IsDiagGaussian (DiagGaussianDistribution.init 4)).
Proof. reflexivity. Qed.

Example factory_box4_sde :
  exists o, make_proba_distribution (Box [4%nat]) true None = Ok (IsStateDependentNoise o)
            /\ StateDependentNoiseDistribution.action_dim o = 4%nat.
Proof. eexists. split; reflexivity. Qed.

Example factory_image :
  make_proba_distribution (Box [84%nat; 84%nat]) false None = Raise UnsupportedShapeError.
Proof. reflexivity. Qed.

Example factory_unknown_keyword :
  make_proba_distribution (Discrete 3) false (Some [("full_std"%string, PyBool true)])
  = Raise TypeError.
Proof. reflexivity. Qed.

Example factory_sde_squashed :
  exists o,
    make_proba_distribution (Box [2%nat]) true
      (Some [("squash_output"%string, PyBool true)])
    = Ok (IsStateDependentNoise o)
    /\ StateDependentNoiseDistribution.bijector o
       = Some (TanhBijector.make StateDependentNoiseDistribution.default_epsilon)
    /\ StateDependentNoiseDistribution.entropy o = Ok None.
Proof. eexists. repeat split; reflexivity. Qed.

(** [DiagGaussianDistribution(action_dim=2)] with [mean = [[0, 0]]] and
    [log_std = [0, 0]]: the mode is the mean, the entropy [1 + log(2 pi)]. *)
Example gaussian_scenario :
  let self :=
    DiagGaussianDistribution.proba_distribution [1%nat] 2
      (DiagGaussianDistribution.init 2) ((0, (0, tt)), tt) (0, (0, tt)) in
  DiagGaussianDistribution.mode self = Ok (existT _ [1%nat; 2%nat] ((0, (0, tt)), tt))
  /\ DiagGaussianDistribution.entropy self
     = Ok (existT _ [1%nat] (1 + ln (2 * PI), tt)).
Proof.
  cbn. split; [reflexivity|].
  do 3 f_equal. rewrite Rmult_1_l, ln_exp. lra.
Qed.

Example get_noise_shared_row :
  StateDependentNoiseDistribution.get_noise sde_noise_example 1 ((7, tt), tt)
  = Ok ((7 * 2 + 0, tt), tt).
Proof. reflexivity. Qed.

Example get_noise_per_sample :
  StateDependentNoiseDistribution.get_noise sde_noise_example 2 ((7, tt), ((11, tt), tt))
  = Ok ((7 * 3 + 0, tt), ((11 * 5 + 0, tt), tt)).
Proof. reflexivity. Qed.

Example get_noise_mismatch :
  StateDependentNoiseDistribution.get_noise sde_noise_example 3
    ((7, tt), ((11, tt), ((13, tt), tt)))
  = Ok ((7 * 2 + 0, tt), ((11 * 2 + 0, tt), ((13 * 2 + 0, tt), tt))).
Proof. reflexivity. Qed.

(** * Further properties *)

(** ** [DiagGaussianDistribution] *)

Lemma big_sum_le (n : nat) (f g : nat -> R) :
  (forall k, (k < n)%nat -> f k <= g k) -> big_sum n f <= big_sum n g.
Proof.
  revert f g; induction n as [|n IH]; intros f g H; simpl; [lra|].
  assert (f O <= g O) by (apply H; lia).
  assert (big_sum n (fun i => f (S i)) <= big_sum n (fun i => g (S i))).
  { apply IH. intros k Hk. apply H. lia. }
  lra.
Qed.

Lemma big_sum_const_plus (n : nat) (c : R) (f : nat -> R) :
  big_sum n (fun k => c + f k) = INR n * c + big_sum n f.
Proof.
  revert f; induction n as [|n IH]; intros f.
  - simpl. lra.
  - cbn [big_sum]. rewrite IH, S_INR. lra.
Qed.

Lemma elem2_rsample (b n : nat) (d : Normal.t [b; n]) (eps : tensor R [b; n]) (i k : nat) :
  (i < b)%nat -> (k < n)%nat ->
  elem2 b n (Normal.rsample [b; n] d eps) i k
  = elem2 b n (Normal.loc d) i k + elem2 b n eps i k * elem2 b n (Normal.scale d) i k.
Proof.
  intros Hi Hk. unfold Normal.rsample, Torch.add, Torch.mul.
  now rewrite !elem2_tmap2 by assumption.
Qed.

(** The rows of the log-probability of a batch. *)
Lemma diag_log_prob_rows (b d : nat) (self : DiagGaussianDistribution.t)
  (mean_actions action : tensor R [b; d]) (log_std : tensor R [d]) :
  exists lp : tensor R [b],
    DiagGaussianDistribution.log_prob [b; d]
      (DiagGaussianDistribution.proba_distribution [b] d self mean_actions log_std) action
    = Ok lp
    /\ forall i, (i < b)%nat ->
         vnth 0 b lp i
         = big_sum d (fun k =>
             normal_log_density (elem2 b d mean_actions i k)
               (1 * exp (vnth 0 d log_std k)) (elem2 b d action i k)).
Proof.
  eexists. split.
  - unfold DiagGaussianDistribution.log_prob, DiagGaussianDistribution.proba_distribution.
    cbn [DiagGaussianDistribution.distribution app].
    rewrite at_shape_same. reflexivity.
  - intros i Hi. cbn [sum_independent_dims].
    rewrite row_sum_axis1 by assumption.
    apply big_sum_ext. intros k Hk.
    rewrite elem2_normal_log_prob by assumption.
    cbn [Normal.loc Normal.scale].
    now rewrite elem2_action_std.
Qed.

(** X1.  After [proba_distribution] on a batch, [sample] is the
    reparameterized draw: the element [(i, k)] is
    [mean[i, k] + eps[i, k] * exp(log_std[k])], the one [log_std] vector serving
    every row; [mode] is the mean, and so is [sample] when the draw is zero. *)
Theorem diag_gaussian_sample_reparameterized :
  forall (b d : nat) (self : DiagGaussianDistribution.t)
         (mean_actions : tensor R [b; d]) (log_std : tensor R [d]) (eps : standard_normal),
    let self' :=
      DiagGaussianDistribution.proba_distribution [b] d self mean_actions log_std in
    DiagGaussianDistribution.mode self' = Ok (existT _ [b; d] mean_actions)
    /\ exists a : tensor R [b; d],
         DiagGaussianDistribution.sample self' eps = Ok (existT _ [b; d] a)
         /\ forall i k, (i < b)%nat -> (k < d)%nat ->
              elem2 b d a i k
              = elem2 b d mean_actions i k
                + elem2 b d (eps [b; d]) i k * exp (vnth 0 d log_std k)
              /\ (elem2 b d (eps [b; d]) i k = 0 ->
                  elem2 b d a i k = elem2 b d mean_actions i k).
Proof.
  intros b d self mean_actions log_std eps self'. split; [reflexivity|].
  eexists. split; [reflexivity|].
  intros i k Hi Hk.
  rewrite elem2_rsample by assumption. cbn [Normal.loc Normal.scale].
  rewrite elem2_action_std by assumption. cbn [app].
  split; [ring | intros ->; ring].
Qed.

Lemma normal_entropy_closed_form (l : R) :
  normal_entropy (1 * exp l) = / 2 * ln (2 * PI * exp 1 * (exp l * exp l)).
Proof.
  unfold normal_entropy. pose proof PI_RGT_0 as Hpi.
  pose proof (exp_pos 1). pose proof (exp_pos l).
  rewrite Rmult_1_l.
  assert (0 < 2 * PI) by lra.
  assert (0 < 2 * PI * exp 1) by (apply Rmult_lt_0_compat; lra).
  assert (0 < exp l * exp l) by (apply Rmult_lt_0_compat; lra).
  rewrite (ln_mult (2 * PI * exp 1)), (ln_mult (2 * PI)), (ln_mult (exp l)) by lra.
  rewrite !ln_exp. lra.
Qed.

(** X2.  The entropy of a batch does not depend on the mean: every row is
    the sum over the action dimensions of [0.5 * log(2 pi e std^2)] with
    [std = exp(log_std[k])], that is [d * (0.5 + 0.5 log(2 pi))] plus the sum of
    [log_std]. *)
Theorem diag_gaussian_entropy_closed_form :
  forall (b d : nat) (self : DiagGaussianDistribution.t)
         (mean_actions : tensor R [b; d]) (log_std : tensor R [d]),
    exists h : tensor R [b],
      DiagGaussianDistribution.entropy
        (DiagGaussianDistribution.proba_distribution [b] d self mean_actions log_std)
      = Ok (existT _ [b] h)
      /\ forall i, (i < b)%nat ->
           vnth 0 b h i
           = big_sum d (fun k =>
               / 2 * ln (2 * PI * exp 1
                         * (exp (vnth 0 d log_std k) * exp (vnth 0 d log_std k))))
           /\ vnth 0 b h i
              = INR d * (/ 2 + / 2 * ln (2 * PI)) + big_sum d (fun k => vnth 0 d log_std k).
Proof.
  intros b d self mean_actions log_std. eexists. split; [reflexivity|].
  intros i Hi. cbn [app sum_independent_dims].
  rewrite row_sum_axis1 by assumption.
  assert (E : forall k, (k < d)%nat ->
            elem2 b d (Normal.entropy [b; d]
              (Normal.make mean_actions
                 (Torch.mul ([b] ++ [d]) (Torch.ones ([b] ++ [d]))
                    (DiagGaussianDistribution.expand_last [b] d (Torch.exp [d] log_std)))))
              i k = normal_entropy (1 * exp (vnth 0 d log_std k))).
  { intros k Hk. unfold Normal.entropy, Torch.log.
    rewrite !elem2_tmap by assumption. cbn [Normal.scale app].
    now rewrite elem2_action_std. }
  split.
  - apply big_sum_ext. intros k Hk. rewrite E by assumption.
    apply normal_entropy_closed_form.
  - rewrite (big_sum_ext d _ (fun k => (/ 2 + / 2 * ln (2 * PI)) + vnth 0 d log_std k)).
    + apply big_sum_const_plus.
    + intros k Hk. rewrite E by assumption. unfold normal_entropy.
      now rewrite Rmult_1_l, ln_exp.
Qed.

Lemma normal_log_density_max (loc scale x : R) :
  0 < scale -> normal_log_density loc scale x <= normal_log_density loc scale loc.
Proof.
  intros Hs. unfold normal_log_density.
  assert (Hd : 0 < 2 * (scale * scale)) by nra.
  assert (- ((x - loc) * (x - loc)) / (2 * (scale * scale)) <= 0).
  { assert (Hi : 0 < / (2 * (scale * scale))) by now apply Rinv_0_lt_compat.
    pose proof (Rle_0_sqr (x - loc)) as Hq. unfold Rsqr in Hq.
    pose proof (Rmult_le_pos _ _ Hq (Rlt_le _ _ Hi)).
    unfold Rdiv. lra. }
  replace (- ((loc - loc) * (loc - loc)) / (2 * (scale * scale))) with 0
    by (field; lra).
  lra.
Qed.

(** X3.  [mode] is the most likely action: in every row of a batch the
    log-probability of any action is at most that of the mean. *)
Theorem diag_gaussian_mode_most_likely :
  forall (b d : nat) (self : DiagGaussianDistribution.t)
         (mean_actions action : tensor R [b; d]) (log_std : tensor R [d]),
    let self' :=
      DiagGaussianDistribution.proba_distribution [b] d self mean_actions log_std in
    exists lp_action lp_mode : tensor R [b],
      DiagGaussianDistribution.log_prob [b; d] self' action = Ok lp_action
      /\ DiagGaussianDistribution.log_prob [b; d] self' mean_actions = Ok lp_mode
      /\ forall i, (i < b)%nat -> vnth 0 b lp_action i <= vnth 0 b lp_mode i.
Proof.
  intros b d self mean_actions action log_std self'.
  destruct (diag_log_prob_rows b d self mean_actions action log_std) as (la & Ea & Ha).
  destruct (diag_log_prob_rows b d self mean_actions mean_actions log_std) as (lm & Em & Hm).
  exists la, lm. repeat split; try assumption.
  intros i Hi. rewrite Ha, Hm by assumption.
  apply big_sum_le. intros k Hk. apply normal_log_density_max.
  rewrite Rmult_1_l. apply exp_pos.
Qed.

(** ** [TanhBijector] *)

Lemma clampR_odd (c y : R) : 0 <= c -> Torch.clampR (- c) c (- y) = - Torch.clampR (- c) c y.
Proof.
  intros Hc. unfold Torch.clampR, Rmin, Rmax.
  destruct (Rle_dec (- y) (- c)); destruct (Rle_dec y (- c));
    repeat match goal with |- context [Rle_dec ?a ?b] => destruct (Rle_dec a b) end; lra.
Qed.

Lemma clampR_le (lo hi y z : R) :
  y <= z -> Torch.clampR lo hi y <= Torch.clampR lo hi z.
Proof.
  intros H. unfold Torch.clampR, Rmin, Rmax.
  destruct (Rle_dec y lo); destruct (Rle_dec z lo);
    repeat match goal with |- context [Rle_dec ?a ?b] => destruct (Rle_dec a b) end; lra.
Qed.

(** X4.  The other round trip: [forward(inverse(y))] is [y] clamped to
    [[-1 + eps, 1 - eps]], for every [y]; so [forward] undoes [inverse] on
    that interval, and [inverse] of the result is [inverse(y)] again. *)
Theorem forward_inverse_clamps :
  forall (dt : Torch.dtype) (s : shape) (y : tensor R s),
    let eps := Torch.finfo_eps dt in
    TanhBijector.forward s (TanhBijector.inverse dt s y)
    = Torch.clamp s y (-1 + eps) (1 - eps)
    /\ TanhBijector.inverse dt s (TanhBijector.forward s (TanhBijector.inverse dt s y))
       = TanhBijector.inverse dt s y.
Proof.
  intros dt s y eps.
  assert (E : TanhBijector.forward s (TanhBijector.inverse dt s y)
              = Torch.clamp s y (-1 + eps) (1 - eps)).
  { rewrite inverse_elementwise.
    unfold TanhBijector.forward, Torch.tanh, Torch.clamp. rewrite tmap_tmap.
    apply tmap_ext. intros v. rewrite inverse1_eq. fold eps.
    pose proof (finfo_eps_bounds dt) as He. fold eps in He.
    pose proof (clampR_bounds (-1 + eps) (1 - eps) v).
    apply tanh_atanh1. lra. }
  split; [exact E|].
  rewrite E, !inverse_elementwise. unfold Torch.clamp. rewrite tmap_tmap.
  apply tmap_ext. intros v. rewrite !inverse1_eq. fold eps.
  pose proof (finfo_eps_bounds dt) as He. fold eps in He.
  pose proof (clampR_bounds (-1 + eps) (1 - eps) v).
  now rewrite (clampR_id _ _ (Torch.clampR _ _ v)) by lra.
Qed.

Lemma inverse1_odd (dt : Torch.dtype) (y : R) : inverse1 dt (- y) = - inverse1 dt y.
Proof.
  rewrite !inverse1_eq. pose proof (finfo_eps_bounds dt) as He.
  replace (-1 + Torch.finfo_eps dt) with (- (1 - Torch.finfo_eps dt)) by ring.
  rewrite clampR_odd by lra. apply atanh1_odd.
Qed.

Lemma inverse1_le (dt : Torch.dtype) (y z : R) :
  y <= z -> inverse1 dt y <= inverse1 dt z.
Proof.
  intros H. rewrite !inverse1_eq. pose proof (finfo_eps_bounds dt) as He.
  pose proof (clampR_bounds (-1 + Torch.finfo_eps dt) (1 - Torch.finfo_eps dt) y).
  pose proof (clampR_bounds (-1 + Torch.finfo_eps dt) (1 - Torch.finfo_eps dt) z).
  apply atanh1_le; try lra. now apply clampR_le.
Qed.

(** X5.  [inverse] is odd, [inverse(-y) = -inverse(y)], and does not
    decrease: a larger action never gets a smaller pre-squash value. *)
Theorem inverse_odd_monotone :
  forall dt : Torch.dtype,
    (forall (s : shape) (y : tensor R s),
        TanhBijector.inverse dt s (Torch.neg s y) = Torch.neg s (TanhBijector.inverse dt s y))
    /\ (forall y z : R,
           y <= z -> TanhBijector.inverse dt [] y <= TanhBijector.inverse dt [] z).
Proof.
  intros dt. split.
  - intros s y. rewrite !inverse_elementwise. unfold Torch.neg. rewrite !tmap_tmap.
    apply tmap_ext. intros v. apply inverse1_odd.
  - intros y z H. now apply inverse1_le.
Qed.

Lemma inverse_odd_monotone_witness :
  TanhBijector.inverse Torch.float32 [] (/ 4) <= TanhBijector.inverse Torch.float32 [] (/ 2).
Proof.
  apply (proj2 (inverse_odd_monotone Torch.float32)). lra.
Defined.




(** ** [SquashedDiagGaussianDistribution] *)




(** X8.  [log_prob] needs a batch: on an unbatched mean of shape [(d,)],
    where [DiagGaussianDistribution.log_prob] gives a scalar, the squashed
    [log_prob] fails on [th.sum(..., dim=1)] with [IndexError], with or without
    a cached value. *)
Theorem squashed_log_prob_needs_batch :
  forall (dt : Torch.dtype) (d : nat) (self : SquashedDiagGaussianDistribution.t)
         (mean_actions log_std action : tensor R [d]) (cached : option (tensor R [d])),
    let self' :=
      SquashedDiagGaussianDistribution.proba_distribution [] d self mean_actions log_std in
    SquashedDiagGaussianDistribution.log_prob dt [d] self' action cached = Raise IndexError
    /\ exists lp : R,
         DiagGaussianDistribution.log_prob [d] (SquashedDiagGaussianDistribution.base self')
           action
         = Ok lp.
Proof.
  intros dt d self mean_actions log_std action cached self'. split.
  - unfold SquashedDiagGaussianDistribution.log_prob, self',
      SquashedDiagGaussianDistribution.proba_distribution,
      DiagGaussianDistribution.proba_distribution.
    cbn [SquashedDiagGaussianDistribution.base app].
    erewrite diag_log_prob_set by reflexivity. reflexivity.
  - eexists. unfold self', SquashedDiagGaussianDistribution.proba_distribution,
      DiagGaussianDistribution.proba_distribution.
    cbn [SquashedDiagGaussianDistribution.base app].
    erewrite diag_log_prob_set by reflexivity. reflexivity.
Qed.

Lemma tmap_tfull (A B : Type) (f : A -> B) (x : A) (s : shape) :
  tmap f s (tfull x s) = tfull (f x) s.
Proof.
  induction s as [|n s IH]; simpl; [reflexivity|].
  induction n as [|n IHn]; simpl; [reflexivity|].
  now rewrite IH, IHn.
Qed.




Lemma vnth_sub (b : nat) (t u : tensor R [b]) (i : nat) :
  (i < b)%nat -> vnth 0 b (Torch.sub [b] t u) i = vnth 0 b t i - vnth 0 b u i.
Proof.
  intros Hi. unfold Torch.sub. cbn [tmap2 tensor].
  now rewrite vnth_vmap2 with (da := 0) (db := 0) by assumption.
Qed.

(** X10.  [log_prob_from_params] on a batch never fails: it returns the
    squashed sample [tanh(g)], with [g[i, k] = mean[i, k] + eps[i, k] *
    exp(log_std[k])], and for every row the log-density of [g] minus the sum
    over the action dimensions of [log(1 - tanh(g)^2 + epsilon)]: on this path
    the correction is the one of the pre-squash value. *)
Theorem squashed_log_prob_from_params_rows :
  forall (dt : Torch.dtype) (b d : nat) (self : SquashedDiagGaussianDistribution.t)
         (mean_actions : tensor R [b; d]) (log_std : tensor R [d]) (eps : standard_normal),
    exists (self' : SquashedDiagGaussianDistribution.t) (g : tensor R [b; d])
           (lp : tensor R [b]),
      SquashedDiagGaussianDistribution.log_prob_from_params dt [b] d self
        mean_actions log_std eps
      = Ok (self', (existT _ [b; d] (Torch.tanh [b; d] g), existT _ [b] lp))
      /\ forall i, (i < b)%nat ->
           (forall k, (k < d)%nat ->
              elem2 b d g i k
              = elem2 b d mean_actions i k
                + elem2 b d (eps [b; d]) i k * exp (vnth 0 d log_std k))
           /\ vnth 0 b lp i
              = big_sum d (fun k =>
                  normal_log_density (elem2 b d mean_actions i k)
                    (1 * exp (vnth 0 d log_std k)) (elem2 b d g i k))
                - big_sum d (fun k =>
                    ln (1 - tanh (elem2 b d g i k) * tanh (elem2 b d g i k)
                        + SquashedDiagGaussianDistribution.epsilon self)).
Proof.
  intros dt b d self mean_actions log_std eps.
  unfold SquashedDiagGaussianDistribution.log_prob_from_params,
    SquashedDiagGaussianDistribution.actions_from_params,
    SquashedDiagGaussianDistribution.get_actions,
    SquashedDiagGaussianDistribution.sample,
    SquashedDiagGaussianDistribution.proba_distribution,
    SquashedDiagGaussianDistribution.distribution,
    DiagGaussianDistribution.proba_distribution.
  cbn [SquashedDiagGaussianDistribution.base DiagGaussianDistribution.distribution
       bind projT1 projT2 SquashedDiagGaussianDistribution.gaussian_action app].
  rewrite dyn_at_same. cbn [bind].
  erewrite squashed_log_prob_unfold by reflexivity.
  cbn [sum_dim1 bind SquashedDiagGaussianDistribution.epsilon].
  eexists _, _, _. split; [reflexivity|].
  intros i Hi. split.
  - intros k Hk. rewrite elem2_rsample by assumption.
    cbn [Normal.loc Normal.scale]. rewrite elem2_action_std by assumption. ring.
  - rewrite vnth_sub by assumption. f_equal.
    + cbn [sum_independent_dims sid_shape]. rewrite row_sum_axis1 by assumption.
      apply big_sum_ext. intros k Hk.
      rewrite elem2_normal_log_prob by assumption.
      cbn [Normal.loc Normal.scale]. now rewrite elem2_action_std.
    + rewrite row_sum_axis1 by assumption.
      apply big_sum_ext. intros k Hk.
      rewrite elem2_tmap by assumption. unfold Torch.tanh.
      now rewrite elem2_tmap by assumption.
Qed.

(** ** [StateDependentNoiseDistribution] *)




Lemma elem3_rsample_n (n l a : nat) (d : Normal.t [l; a]) (eps : tensor R [n; l; a])
  (c i j : nat) :
  (c < n)%nat -> (i < l)%nat -> (j < a)%nat ->
  elem3 n l a (Normal.rsample_n [l; a] d n eps) c i j
  = elem2 l a (Normal.loc d) i j + elem3 n l a eps c i j * elem2 l a (Normal.scale d) i j.
Proof.
  intros Hc Hi Hj. unfold elem3, Normal.rsample_n.
  rewrite vnth_vmap with (da := tfull 0 [l; a]) by assumption.
  now apply elem2_rsample.
Qed.

Lemma elem2_zeros (l a i j : nat) :
  (i < l)%nat -> (j < a)%nat -> elem2 l a (Torch.zeros [l; a]) i j = 0.
Proof.
  intros Hi Hj. unfold elem2, Torch.zeros. cbn [tfull].
  rewrite vnth_vrepeat by assumption. now apply vnth_vrepeat.
Qed.

(** X12.  When [get_std] succeeds, [sample_weights(log_std, n)] leaves one
    shared exploration matrix and [n] per-sample matrices, every weight being
    its standard normal draw times the standard deviation at its place
    ([0 + eps * std]).  Until the next call, [get_noise] multiplies a batch of
    one row, or of a length other than [n], with the shared matrix, and a
    batch of [n] rows ([n <> 1]) row by row with the per-sample matrices. *)
Theorem sample_weights_then_get_noise :
  forall (self : StateDependentNoiseDistribution.t)
         (log_std : tensor R (StateDependentNoiseDistribution.log_std_shape self))
         (n : nat) (eps1 : tensor R (StateDependentNoiseDistribution.std_shape self))
         (epsn : tensor R (n :: StateDependentNoiseDistribution.std_shape self))
         (std : tensor R (StateDependentNoiseDistribution.std_shape self)),
    StateDependentNoiseDistribution.get_std self log_std = Ok std ->
    exists (self' : StateDependentNoiseDistribution.t)
           (m : tensor R [sde_features self'; sde_actions self'])
           (mats : tensor R [n; sde_features self'; sde_actions self']),
      StateDependentNoiseDistribution.sample_weights self log_std n eps1 epsn = Ok self'
      /\ StateDependentNoiseDistribution.exploration_mat self' = Some m
      /\ StateDependentNoiseDistribution.exploration_matrices self' = Some (existT _ n mats)
      /\ (forall i j, (i < sde_features self)%nat -> (j < sde_actions self)%nat ->
            elem2 (sde_features self') (sde_actions self') m i j
            = 0 + elem2 (sde_features self) (sde_actions self) eps1 i j
                  * elem2 (sde_features self) (sde_actions self) std i j)
      /\ (forall c i j, (c < n)%nat ->
            (i < sde_features self)%nat -> (j < sde_actions self)%nat ->
            elem3 n (sde_features self') (sde_actions self') mats c i j
            = 0 + elem3 n (sde_features self) (sde_actions self) epsn c i j
                  * elem2 (sde_features self) (sde_actions self) std i j)
      /\ (forall (b : nat) (x : tensor R [b; sde_features self']),
            b = 1%nat \/ b <> n ->
            StateDependentNoiseDistribution.get_noise self' b x
            = Ok (Torch.mm b (sde_features self') (sde_actions self') x m))
      /\ (forall x : tensor R [n; sde_features self'],
            n <> 1%nat ->
            StateDependentNoiseDistribution.get_noise self' n x
            = Ok (Torch.squeeze1 n (sde_actions self')
                    (Torch.bmm n 1 (sde_features self') (sde_actions self')
                       (Torch.unsqueeze1 n (sde_features self') x) mats))).
Proof.
  intros self log_std n eps1 epsn std Hstd.
  unfold StateDependentNoiseDistribution.sample_weights. rewrite Hstd. cbn [bind].
  eexists _, _, _. split; [reflexivity|].
  cbn [StateDependentNoiseDistribution.exploration_mat
       StateDependentNoiseDistribution.exploration_matrices
       StateDependentNoiseDistribution.latent_sde_dim
       StateDependentNoiseDistribution.action_dim].
  split; [reflexivity|]. split; [reflexivity|].
  unfold StateDependentNoiseDistribution.std_shape in *.
  split; [|split; [|split]].
  - intros i j Hi Hj. rewrite elem2_rsample by assumption.
    cbn [Normal.loc Normal.scale]. now rewrite elem2_zeros by assumption.
  - intros c i j Hc Hi Hj. rewrite elem3_rsample_n by assumption.
    cbn [Normal.loc Normal.scale]. now rewrite elem2_zeros by assumption.
  - intros b x Hb. unfold StateDependentNoiseDistribution.get_noise.
    cbn [StateDependentNoiseDistribution.exploration_mat
         StateDependentNoiseDistribution.exploration_matrices
         StateDependentNoiseDistribution.latent_sde_dim
         StateDependentNoiseDistribution.action_dim].
    destruct Hb as [-> | Hb]; [reflexivity|].
    destruct (b =? 1)%nat; [reflexivity|].
    destruct (Nat.eq_dec n b) as [e|_]; [congruence | reflexivity].
  - intros x Hn. unfold StateDependentNoiseDistribution.get_noise.
    cbn [StateDependentNoiseDistribution.exploration_mat
         StateDependentNoiseDistribution.exploration_matrices
         StateDependentNoiseDistribution.latent_sde_dim
         StateDependentNoiseDistribution.action_dim].
    apply Nat.eqb_neq in Hn. rewrite Hn.
    destruct (Nat.eq_dec n n) as [e|ne]; [|contradiction].
    now rewrite <- (Eqdep_dec.eq_rect_eq_dec Nat.eq_dec).
Qed.

Lemma sample_weights_then_get_noise_witness :
  exists self' : StateDependentNoiseDistribution.t,
    StateDependentNoiseDistribution.sample_weights sde_expln_example ((-3, tt), tt) 2
      ((1, tt), tt) (((2, tt), tt), (((3, tt), tt), tt))
    = Ok self'
    /\ exists mats,
         StateDependentNoiseDistribution.exploration_matrices self'
         = Some (existT _ 2%nat mats).
Proof.
  destruct (sample_weights_then_get_noise sde_expln_example ((-3, tt), tt) 2
              ((1, tt), tt) (((2, tt), tt), (((3, tt), tt), tt))
              (StateDependentNoiseDistribution.std_of_log_std true
                 StateDependentNoiseDistribution.default_epsilon [1%nat; 1%nat]
                 ((-3, tt), tt))
              eq_refl)
    as (self' & m & mats & Hsw & _ & Hmats & _).
  exists self'. split; [exact Hsw|]. now exists mats.
Defined.

(** X13.  [proba_distribution_net] never fails.  It sets [latent_sde_dim]
    to its [latent_sde_dim] argument, or to [latent_dim] when that is [None],
    returns a [log_std] parameter of [latent_sde_dim] rows and [action_dim]
    columns (one column without [full_std]) filled with [log_std_init], and
    samples the weights with [batch_size = 1]: right after it every batch,
    whatever its length, gets its noise from the shared matrix. *)
Theorem proba_distribution_net_seeds_exploration :
  forall (self : StateDependentNoiseDistribution.t) (latent_dim : nat) (log_std_init : R)
         (latent_sde_dim_arg : option nat) (eps : standard_normal),
    let l := match latent_sde_dim_arg with None => latent_dim | Some l => l end in
    let cols := StateDependentNoiseDistribution.std_cols
                  (StateDependentNoiseDistribution.full_std self) (sde_actions self) in
    exists (self' : StateDependentNoiseDistribution.t) (log_std : tensor R [l; cols])
           (m : tensor R [sde_features self'; sde_actions self']),
      StateDependentNoiseDistribution.proba_distribution_net self latent_dim log_std_init
        latent_sde_dim_arg eps
      = Ok (self', ((latent_dim, sde_actions self), existT _ [l; cols] log_std))
      /\ StateDependentNoiseDistribution.latent_sde_dim self' = Some l
      /\ sde_actions self' = sde_actions self
      /\ tforall (fun v => v = 1 * log_std_init) [l; cols] log_std
      /\ StateDependentNoiseDistribution.exploration_mat self' = Some m
      /\ forall (b : nat) (x : tensor R [b; sde_features self']),
           StateDependentNoiseDistribution.get_noise self' b x
           = Ok (Torch.mm b (sde_features self') (sde_actions self') x m).
Proof.
  intros self latent_dim log_std_init latent_sde_dim_arg eps l cols.
  destruct self as [a l0 ue fs epsilon learn bij dist wd em ems ls].
  unfold cols, StateDependentNoiseDistribution.proba_distribution_net,
    StateDependentNoiseDistribution.sample_weights.
  cbn [StateDependentNoiseDistribution.action_dim StateDependentNoiseDistribution.full_std
       StateDependentNoiseDistribution.use_expln StateDependentNoiseDistribution.epsilon
       StateDependentNoiseDistribution.learn_features
       StateDependentNoiseDistribution.bijector
       StateDependentNoiseDistribution.distribution
       StateDependentNoiseDistribution._latent_sde].
  fold l.
  assert (Hnoise : forall (b : nat) (P : Prop), (b =? 1)%nat = false -> 1%nat = b -> P).
  { intros b P Hb <-. discriminate. }
  destruct fs;
    cbn -[StateDependentNoiseDistribution.std_of_log_std Torch.mul Torch.ones Torch.muls
          Torch.zeros Normal.rsample Normal.rsample_n Torch.mm Torch.bmm tforall Nat.eqb
          StateDependentNoiseDistribution.expand_cols];
    (eexists _, _, _; split; [reflexivity|];
     split; [reflexivity|]; split; [reflexivity|]; split;
     [ unfold Torch.muls, Torch.ones; rewrite tmap_tfull; now apply tforall_tfull
     | split; [reflexivity|];
       intros b x; unfold StateDependentNoiseDistribution.get_noise;
       cbn [StateDependentNoiseDistribution.exploration_mat
            StateDependentNoiseDistribution.exploration_matrices
            StateDependentNoiseDistribution.latent_sde_dim
            StateDependentNoiseDistribution.action_dim];
       destruct (b =? 1)%nat eqn:Hb; [reflexivity|];
       destruct (Nat.eq_dec 1 b) as [e|_]; [exact (Hnoise b _ Hb e) | reflexivity] ]).
Qed.

Lemma big_sum_nonneg (n : nat) (f : nat -> R) :
  (forall k, (k < n)%nat -> 0 <= f k) -> 0 <= big_sum n f.
Proof.
  intros H. rewrite <- (big_sum_zero n). apply big_sum_le. exact H.
Qed.

Lemma big_sum_plus (n : nat) (f g : nat -> R) :
  big_sum n (fun k => f k + g k) = big_sum n f + big_sum n g.
Proof.
  revert f g; induction n as [|n IH]; intros f g; simpl; [lra|].
  rewrite IH. lra.
Qed.

Lemma big_sum_scal (n : nat) (c : R) (f : nat -> R) :
  big_sum n (fun k => c * f k) = c * big_sum n f.
Proof.
  revert f; induction n as [|n IH]; intros f; simpl; [lra|].
  rewrite IH. lra.
Qed.






(** What [get_noise] returns is linear in the features: either it fails
    with [TypeError] whatever they are, or the noise of row [i] is the sum over
    [k] of [latent_sde[i, k] * w i k j] for weights that do not depend on
    them. *)
Lemma get_noise_linear_form (self : StateDependentNoiseDistribution.t) (b : nat) :
  (exists w : nat -> nat -> nat -> R,
      forall x : tensor R [b; sde_features self],
      exists noise,
        StateDependentNoiseDistribution.get_noise self b x = Ok noise
        /\ forall i j, (i < b)%nat -> (j < sde_actions self)%nat ->
             elem2 b (sde_actions self) noise i j
             = big_sum (sde_features self)
                 (fun k => elem2 b (sde_features self) x i k * w i k j))
  \/ (forall x : tensor R [b; sde_features self],
         StateDependentNoiseDistribution.get_noise self b x = Raise TypeError).
Proof.
  unfold StateDependentNoiseDistribution.get_noise. cbv zeta.
  assert (Hshared :
    (exists w : nat -> nat -> nat -> R,
        forall x : tensor R [b; sde_features self],
        exists noise,
          match StateDependentNoiseDistribution.exploration_mat self with
          | Some m => Ok (Torch.mm b (sde_features self) (sde_actions self) x m)
          | None => Raise TypeError
          end = Ok noise
          /\ forall i j, (i < b)%nat -> (j < sde_actions self)%nat ->
               elem2 b (sde_actions self) noise i j
               = big_sum (sde_features self)
                   (fun k => elem2 b (sde_features self) x i k * w i k j))
    \/ (forall x : tensor R [b; sde_features self],
           match StateDependentNoiseDistribution.exploration_mat self with
           | Some m => Ok (Torch.mm b (sde_features self) (sde_actions self) x m)
           | None => Raise TypeError
           end = Raise TypeError)).
  { destruct (StateDependentNoiseDistribution.exploration_mat self) as [m|].
    - left. exists (fun _ k j => elem2 _ _ m k j). intros x. eexists.
      split; [reflexivity|]. intros i j Hi Hj. now apply mm_elem.
    - now right. }
  destruct (b =? 1)%nat; [exact Hshared|].
  destruct (StateDependentNoiseDistribution.exploration_matrices self) as [[n mats]|];
    [|now right].
  destruct (Nat.eq_dec n b) as [e|ne]; [|exact Hshared].
  subst n. cbn [eq_rect]. left.
  exists (fun i k j => elem3 b _ _ mats i k j). intros x. eexists.
  split; [reflexivity|]. intros i j Hi Hj. now apply per_sample_elem.
Qed.

(** X16.  The noise is a linear function of the features: where
    [get_noise] succeeds on two batches of features it succeeds on their sum
    and on any multiple, with the sum and the multiple of the noises, and the
    noise of a row of zeros is zero. *)
Theorem get_noise_linear :
  forall (self : StateDependentNoiseDistribution.t) (b : nat)
         (x y : tensor R [b; sde_features self]) (c : R)
         (nx ny : tensor R [b; sde_actions self]),
    StateDependentNoiseDistribution.get_noise self b x = Ok nx ->
    StateDependentNoiseDistribution.get_noise self b y = Ok ny ->
    exists nxy ncx : tensor R [b; sde_actions self],
      StateDependentNoiseDistribution.get_noise self b (Torch.add _ x y) = Ok nxy
      /\ StateDependentNoiseDistribution.get_noise self b (Torch.rmuls _ c x) = Ok ncx
      /\ forall i j, (i < b)%nat -> (j < sde_actions self)%nat ->
           elem2 b _ nxy i j = elem2 b _ nx i j + elem2 b _ ny i j
           /\ elem2 b _ ncx i j = c * elem2 b _ nx i j
           /\ ((forall k, (k < sde_features self)%nat -> elem2 b _ x i k = 0) ->
               elem2 b _ nx i j = 0).
Proof.
  intros self b x y c nx ny Hx Hy.
  destruct (get_noise_linear_form self b) as [(w & Hw) | Hraise].
  2:{ rewrite Hraise in Hx. discriminate. }
  destruct (Hw x) as (nx' & Ex & Hnx). rewrite Hx in Ex. apply Ok_inj in Ex. subst nx'.
  destruct (Hw y) as (ny' & Ey & Hny). rewrite Hy in Ey. apply Ok_inj in Ey. subst ny'.
  destruct (Hw (Torch.add _ x y)) as (nxy & Exy & Hnxy).
  destruct (Hw (Torch.rmuls _ c x)) as (ncx & Ecx & Hncx).
  exists nxy, ncx. split; [exact Exy|]. split; [exact Ecx|].
  intros i j Hi Hj.
  rewrite Hnxy, Hncx, Hnx, Hny by assumption. split; [|split].
  - rewrite <- big_sum_plus. apply big_sum_ext. intros k Hk.
    unfold Torch.add. rewrite elem2_tmap2 by assumption. ring.
  - rewrite <- big_sum_scal. apply big_sum_ext. intros k Hk.
    unfold Torch.rmuls. rewrite elem2_tmap by assumption. ring.
  - intros Hz. rewrite <- (big_sum_zero (sde_features self)).
    apply big_sum_ext. intros k Hk. rewrite Hz by assumption. ring.
Qed.

Lemma get_noise_linear_witness :
  exists nxy ncx : tensor R [2%nat; 1%nat],
    StateDependentNoiseDistribution.get_noise sde_noise_example 2
      (Torch.add [2%nat; 1%nat] ((7, tt), ((11, tt), tt)) ((1, tt), ((1, tt), tt)))
    = Ok nxy
    /\ StateDependentNoiseDistribution.get_noise sde_noise_example 2
         (Torch.rmuls [2%nat; 1%nat] 2 ((7, tt), ((11, tt), tt)))
       = Ok ncx.
Proof.
  destruct (get_noise_linear sde_noise_example 2 ((7, tt), ((11, tt), tt))
              ((1, tt), ((1, tt), tt)) 2
              ((7 * 3 + 0, tt), ((11 * 5 + 0, tt), tt))
              ((1 * 3 + 0, tt), ((1 * 5 + 0, tt), tt)) eq_refl eq_refl)
    as (nxy & ncx & Hxy & Hcx & _).
  now exists nxy, ncx.
Defined.


(** X17.  Once the distribution is set, [log_prob] of a batch of actions
    is, for every row: without a bijector, the sum over the action dimensions
    of the normal log-densities at the action; with one, the same sum at
    [x = inverse(action)] minus the sum of [log(1 - tanh(x)^2 + epsilon)], the
    correction being computed from the pre-squash value. *)
Theorem sde_log_prob_rows :
  forall (dt : Torch.dtype) (self : StateDependentNoiseDistribution.t) (b : nat)
         (d : Normal.t [b; sde_actions self]) (action : tensor R [b; sde_actions self]),
    StateDependentNoiseDistribution.distribution self = Some (existT _ b d) ->
    let x := fun i k =>
               match StateDependentNoiseDistribution.bijector self with
               | Some _ => TanhBijector.inverse dt [] (elem2 b _ action i k)
               | None => elem2 b _ action i k
               end in
    exists lp : tensor R [b],
      StateDependentNoiseDistribution.log_prob dt self b action = Ok lp
      /\ forall i, (i < b)%nat ->
           vnth 0 b lp i
           = big_sum (sde_actions self) (fun k =>
               normal_log_density (elem2 b _ (Normal.loc d) i k)
                 (elem2 b _ (Normal.scale d) i k) (x i k))
             - match StateDependentNoiseDistribution.bijector self with
               | Some bij =>
                   big_sum (sde_actions self) (fun k =>
                     ln (1 - tanh (x i k) * tanh (x i k) + TanhBijector.epsilon bij))
               | None => 0
               end.
Proof.
  intros dt self b d action Hd x.
  unfold StateDependentNoiseDistribution.log_prob. rewrite Hd. cbn [projT1 projT2].
  destruct (Nat.eq_dec b b) as [e|ne]; [|contradiction].
  rewrite <- (Eqdep_dec.eq_rect_eq_dec Nat.eq_dec).
  unfold x. destruct (StateDependentNoiseDistribution.bijector self) as [[epsilon]|].
  - eexists. split; [reflexivity|]. intros i Hi.
    rewrite vnth_sub by assumption. cbn [sum_independent_dims TanhBijector.epsilon].
    rewrite !row_sum_axis1 by assumption. f_equal.
    + apply big_sum_ext. intros k Hk.
      rewrite elem2_normal_log_prob by assumption.
      rewrite inverse_elementwise. now rewrite elem2_tmap by assumption.
    + apply big_sum_ext. intros k Hk.
      rewrite bijector_correction, inverse_elementwise.
      now rewrite !elem2_tmap by assumption.
  - eexists. split; [reflexivity|]. intros i Hi.
    cbn [sum_independent_dims]. rewrite row_sum_axis1 by assumption.
    rewrite Rminus_0_r. apply big_sum_ext. intros k Hk.
    now rewrite elem2_normal_log_prob by assumption.
Qed.

Lemma sde_log_prob_rows_witness :
  exists lp : tensor R [1%nat],
    StateDependentNoiseDistribution.log_prob Torch.float32 sde_example 1 ((/ 2, tt), tt)
    = Ok lp.
Proof.
  destruct (sde_log_prob_rows Torch.float32 sde_example 1
              (Normal.make (s := [1%nat; 1%nat]) ((0, tt), tt) ((1, tt), tt))
              ((/ 2, tt), tt) eq_refl)
    as (lp & Hlp & _).
  now exists lp.
Defined.

(** X18.  [actions_from_params] sets the distribution and draws from it in
    one call: when [get_std] and [get_noise] succeed on the object as it stands,
    the deterministic action is the mean and the stochastic one the mean plus
    the noise of the features just given, from the exploration matrices the
    object already had (both squashed with a bijector); the exploration
    matrices are not resampled. *)
Theorem sde_actions_from_params_elements :
  forall (self : StateDependentNoiseDistribution.t) (b : nat)
         (mean_actions : tensor R [b; sde_actions self])
         (log_std : tensor R (StateDependentNoiseDistribution.log_std_shape self))
         (latent_sde : tensor R [b; sde_features self]) (deterministic : bool)
         (std : tensor R (StateDependentNoiseDistribution.std_shape self))
         (noise : tensor R [b; sde_actions self]),
    StateDependentNoiseDistribution.get_std self log_std = Ok std ->
    StateDependentNoiseDistribution.get_noise self b latent_sde = Ok noise ->
    let squash := match StateDependentNoiseDistribution.bijector self with
                  | Some _ => tanh
                  | None => fun v => v
                  end in
    exists (self' : StateDependentNoiseDistribution.t)
           (a : tensor R [b; sde_actions self']),
      StateDependentNoiseDistribution.actions_from_params self b mean_actions log_std
        latent_sde deterministic
      = Ok (existT _ self' (existT _ b a))
      /\ forall i j, (i < b)%nat -> (j < sde_actions self)%nat ->
           elem2 b (sde_actions self') a i j
           = squash (if deterministic
                     then elem2 b (sde_actions self) mean_actions i j
                     else elem2 b (sde_actions self) mean_actions i j
                          + elem2 b (sde_actions self) noise i j).
Proof.
  intros self b mean_actions log_std latent_sde deterministic std noise Hstd Hn squash.
  unfold StateDependentNoiseDistribution.actions_from_params,
    StateDependentNoiseDistribution.proba_distribution.
  rewrite Hstd. cbn [bind].
  destruct deterministic.
  - unfold StateDependentNoiseDistribution.get_actions, StateDependentNoiseDistribution.mode.
    cbn [StateDependentNoiseDistribution.distribution
         StateDependentNoiseDistribution.bijector
         StateDependentNoiseDistribution.action_dim bind].
    destruct (StateDependentNoiseDistribution.bijector self) as [bij|] eqn:Hb;
      cbn [bind];
      eexists (StateDependentNoiseDistribution.make _ _ _ _ _ _ _ _ _ _ _ _), _;
      (split; [reflexivity|]);
      intros i j Hi Hj; cbn [StateDependentNoiseDistribution.action_dim];
      unfold squash, Normal.mean, TanhBijector.forward, Torch.tanh; cbn [Normal.loc].
    + now rewrite elem2_tmap by assumption.
    + reflexivity.
  - unfold StateDependentNoiseDistribution.get_actions.
    cbn [StateDependentNoiseDistribution._latent_sde
         StateDependentNoiseDistribution.latent_sde_dim].
    destruct (Nat.eq_dec (sde_features self) (sde_features self)) as [e|ne];
      [|contradiction].
    rewrite <- (Eqdep_dec.eq_rect_eq_dec Nat.eq_dec).
    unfold StateDependentNoiseDistribution.sample.
    change (StateDependentNoiseDistribution.get_noise _ b latent_sde)
      with (StateDependentNoiseDistribution.get_noise self b latent_sde).
    rewrite Hn.
    cbn [bind StateDependentNoiseDistribution.distribution projT1 projT2
         StateDependentNoiseDistribution.bijector
         StateDependentNoiseDistribution.action_dim].
    destruct (Nat.eq_dec b b) as [e'|ne]; [|contradiction].
    rewrite <- (Eqdep_dec.eq_rect_eq_dec Nat.eq_dec).
    destruct (StateDependentNoiseDistribution.bijector self) as [bij|] eqn:Hb;
      cbn [bind];
      eexists (StateDependentNoiseDistribution.make _ _ _ _ _ _ _ _ _ _ _ _), _;
      (split; [reflexivity|]);
      intros i j Hi Hj; cbn [StateDependentNoiseDistribution.action_dim];
      unfold squash, Normal.mean, TanhBijector.forward, Torch.tanh, Torch.add;
      cbn [Normal.loc].
    + now rewrite elem2_tmap, elem2_tmap2 by assumption.
    + now rewrite elem2_tmap2 by assumption.
Qed.

Lemma sde_actions_from_params_elements_witness :
  exists (self' : StateDependentNoiseDistribution.t)
         (a : tensor R [1%nat; sde_actions self']),
    StateDependentNoiseDistribution.actions_from_params sde_noise_example 1
      ((5, tt), tt) ((0, tt), tt) ((7, tt), tt) false
    = Ok (existT _ self' (existT _ 1%nat a)).
Proof.
  destruct (sde_actions_from_params_elements sde_noise_example 1
              ((5, tt), tt) ((0, tt), tt) ((7, tt), tt) false
              (StateDependentNoiseDistribution.std_of_log_std false
                 StateDependentNoiseDistribution.default_epsilon [1%nat; 1%nat]
                 ((0, tt), tt))
              ((7 * 2 + 0, tt), tt) eq_refl eq_refl)
    as (self' & a & Ha & _).
  now exists self', a.
Defined.

(** ** [CategoricalDistribution] *)




Lemma sum_exp_pos (k : nat) (row : tensor R [S k]) :
  0 < Torch.sum [S k] (Torch.exp [S k] row).
Proof.
  rewrite sum_vector. cbn [big_sum].
  assert (0 <= big_sum k (fun i => vnth 0 (S k) (Torch.exp [S k] row) (S i))).
  { apply big_sum_nonneg. intros c Hc. unfold Torch.exp. cbn [tmap tensor].
    rewrite vnth_vmap with (da := 0) by lia. left. apply exp_pos. }
  assert (0 < vnth 0 (S k) (Torch.exp [S k] row) 0).
  { unfold Torch.exp. cbn [tmap tensor].
    rewrite vnth_vmap with (da := 0) by lia. apply exp_pos. }
  lra.
Qed.

(** A row of [probs] is a strictly increasing function of the logits of
    the row. *)
Lemma probs_row (n : nat) (row : tensor R [n]) :
  Categorical.softmax n (Torch.subs [n] row (Categorical.logsumexp n row))
  = tmap (fun x => exp (x - Categorical.logsumexp n row)
                   / Torch.sum [n] (Torch.exp [n]
                                      (Torch.subs [n] row (Categorical.logsumexp n row))))
      [n] row.
Proof.
  unfold Categorical.softmax. cbv zeta. unfold Torch.exp at 2, Torch.subs at 2.
  now rewrite !tmap_tmap.
Qed.


Lemma big_sum_ge_term (n : nat) (f : nat -> R) (c : nat) :
  (forall k, (k < n)%nat -> 0 <= f k) -> (c < n)%nat -> f c <= big_sum n f.
Proof.
  revert f c; induction n as [|n IH]; intros f c Hf Hc; [lia|].
  cbn [big_sum].
  assert (0 <= f O) by (apply Hf; lia).
  assert (0 <= big_sum n (fun i => f (S i)))
    by (apply big_sum_nonneg; intros k Hk; apply Hf; lia).
  destruct c as [|c]; [lra|].
  assert (f (S c) <= big_sum n (fun i => f (S i))).
  { apply (IH (fun i => f (S i)) c); [intros k Hk; apply Hf; lia | lia]. }
  lra.
Qed.


Lemma logsumexp_row (n : nat) (row : tensor R [n]) :
  Categorical.logsumexp n row = ln (big_sum n (fun c => exp (vnth 0 n row c))).
Proof.
  unfold Categorical.logsumexp. rewrite sum_vector. f_equal.
  apply big_sum_ext. intros c Hc. unfold Torch.exp. cbn [tmap tensor].
  now rewrite vnth_vmap with (da := 0) by assumption.
Qed.

(** One kept logit: the logit minus the log of the sum of the exponentials
    of its row. *)
Lemma elem2_normalize (b n : nat) (logits : tensor R [b; n]) (i c : nat) :
  (i < b)%nat -> (c < n)%nat ->
  elem2 b n (Categorical.normalize b n logits) i c
  = elem2 b n logits i c - ln (big_sum n (fun c' => exp (elem2 b n logits i c'))).
Proof.
  intros Hi Hc. unfold elem2 at 1, Categorical.normalize.
  rewrite vnth_vmap with (da := tfull 0 [n]) by assumption.
  unfold Torch.subs. cbn [tmap tensor].
  rewrite vnth_vmap with (da := 0) by assumption.
  now rewrite logsumexp_row.
Qed.

Lemma normalized_nonpos (b k : nat) (logits : tensor R [b; S k]) (i c : nat) :
  (c < S k)%nat ->
  elem2 b (S k) logits i c
  - ln (big_sum (S k) (fun c' => exp (elem2 b (S k) logits i c'))) <= 0.
Proof.
  intros Hc.
  assert (Hle : exp (elem2 b (S k) logits i c)
                <= big_sum (S k) (fun c' => exp (elem2 b (S k) logits i c'))).
  { apply (big_sum_ge_term (S k) (fun c' => exp (elem2 b (S k) logits i c')) c);
      [intros c' _; left; apply exp_pos | assumption]. }
  pose proof (exp_pos (elem2 b (S k) logits i c)) as Hpos.
  apply ln_le in Hle; [|assumption]. rewrite ln_exp in Hle. lra.
Qed.





Lemma finfo_min_neg (dt : Torch.dtype) : Categorical.finfo_min dt < 0.
Proof.
  destruct dt; cbn [Categorical.finfo_min]; try lra;
    match goal with
    | |- - (?a * 2 ^ ?n) < 0 =>
        assert (0 < 2 ^ n) by (apply pow_lt; lra);
        assert (0 < a * 2 ^ n) by (apply Rmult_lt_0_compat; lra); lra
    end.
Qed.

Lemma elem2_probs_nonneg (b k : nat) (logits : tensor R [b; S k]) (i c : nat) :
  (i < b)%nat -> (c < S k)%nat -> 0 <= elem2 b (S k) (Categorical.probs b (S k) logits) i c.
Proof.
  intros Hi Hc. unfold elem2, Categorical.probs, Categorical.normalize.
  rewrite vmap_vmap.
  rewrite vnth_vmap with (da := tfull 0 [S k]) by assumption.
  rewrite probs_row. cbn [tmap tensor].
  rewrite vnth_vmap with (da := 0) by assumption.
  pose proof (sum_exp_pos k
                (Torch.subs [S k] (vnth (tfull 0 [S k]) b logits i)
                   (Categorical.logsumexp (S k) (vnth (tfull 0 [S k]) b logits i)))) as Hs.
  left. apply Rdiv_lt_0_compat; [apply exp_pos | exact Hs].
Qed.

(** X21.  After [proba_distribution] on logits with at least one category,
    the entropy of every row is non-negative. *)
Theorem categorical_entropy_nonneg :
  forall (dt : Torch.dtype) (b k : nat) (self : CategoricalDistribution.t)
         (logits : tensor R [b; S k]),
    exists h : tensor R [b],
      CategoricalDistribution.entropy dt
        (CategoricalDistribution.proba_distribution b (S k) self logits)
      = Ok (existT _ b h)
      /\ forall i, (i < b)%nat -> 0 <= vnth 0 b h i.
Proof.
  intros dt b k self logits. eexists. split; [reflexivity|].
  intros i Hi. unfold Categorical.entropy. cbv zeta.
  rewrite vnth_vmap with (da := tfull 0 [S k]) by assumption.
  rewrite sum_vector.
  assert (Hle : big_sum (S k) (fun c =>
                  elem2 b (S k)
                    (Torch.mul [b; S k]
                       (tmap (fun x => Rmax x (Categorical.finfo_min dt)) [b; S k]
                          (Categorical.normalize b (S k) logits))
                       (Categorical.probs b (S k) logits)) i c)
                <= big_sum (S k) (fun _ => 0)).
  { apply big_sum_le. intros c Hc. unfold Torch.mul.
    rewrite elem2_tmap2, elem2_tmap, elem2_normalize by assumption.
    pose proof (normalized_nonpos b k logits i c Hc) as Hn.
    pose proof (finfo_min_neg dt) as Hm.
    pose proof (elem2_probs_nonneg b k logits i c Hi Hc) as Hp.
    assert (Hmax : Rmax (elem2 b (S k) logits i c
                         - ln (big_sum (S k) (fun c' => exp (elem2 b (S k) logits i c'))))
                        (Categorical.finfo_min dt) <= 0).
    { apply Rmax_lub; lra. }
    nra. }
  rewrite big_sum_zero in Hle. unfold elem2 in Hle. lra.
Qed.

(** ** The factory and the objects it builds *)

(** X22.  For the factory [dist_kwargs=None] is the empty dictionary.  The
    shape of a box is checked before anything is built: a box that is not a
    vector fails on the assertion whatever the keyword arguments.
    [DiagGaussianDistribution] and [CategoricalDistribution] take no keyword:
    any keyword argument for a vector box without [use_sde], or for a discrete
    space, is a [TypeError]. *)
Theorem factory_keyword_arguments :
  (forall (action_space : Space) (use_sde : bool),
      make_proba_distribution action_space use_sde None
      = make_proba_distribution action_space use_sde (Some []))
  /\ (forall (shape : list nat) (use_sde : bool) (dist_kwargs : option kwargs),
         List.length shape <> 1%nat ->
         make_proba_distribution (Box shape) use_sde dist_kwargs
         = Raise UnsupportedShapeError)
  /\ (forall (d : nat) (kv : string * pyval) (kw : kwargs),
         make_proba_distribution (Box [d]) false (Some (kv :: kw)) = Raise TypeError)
  /\ (forall (n : nat) (use_sde : bool) (kv : string * pyval) (kw : kwargs),
         make_proba_distribution (Discrete n) use_sde (Some (kv :: kw)) = Raise TypeError).
Proof.
  split; [|split; [|split]].
  - intros action_space use_sde. reflexivity.
  - intros shape use_sde dist_kwargs Hlen. unfold make_proba_distribution.
    apply Nat.eqb_neq in Hlen. now rewrite Hlen.
  - intros d kv kw. reflexivity.
  - intros n use_sde kv kw. reflexivity.
Qed.

Lemma factory_keyword_arguments_witness :
  make_proba_distribution (Box []) true (Some [("full_std"%string, PyBool false)])
  = Raise UnsupportedShapeError.
Proof.
  apply (proj1 (proj2 factory_keyword_arguments)). simpl. lia.
Defined.


